(** * RO-Crate manifest generation of the Future Land Use notebook

    A shallow embedding of [create_and_write_ro_crate_metadata] (the
    version taking [omit_names]) from [future_land_use_RO.ipynb], with its
    three nested helpers [should_omit], [list_directory_contents] and
    [get_description_from_resource_file], and the properties of the
    manifest it builds.

    The disk is a tree of named nodes.  Absolute paths are lists of
    components; the relative paths the code stores in its dictionaries are
    strings, exactly as in the notebook.  Python dictionaries with optional
    keys are records with [option] fields; the entity dictionaries that are
    shared between [metadata["@graph"]] and [path_to_entity] live in one
    list (the graph) and [path_to_entity] holds their positions, so that an
    update made through [path_to_entity] is seen in the graph.

    The notebook's first version of the function (no [omit_names], resource
    files named [_resource.yaml], an [output_file] argument) is embedded in
    module [V1]. *)

From Stdlib Require Import ZArith String Ascii List Bool Lia.
From stdpp Require Import base option list gmap strings fin_maps.

Set Warnings "-register-all".

Local Open Scope string_scope.
Local Open Scope list_scope.

(** ** Python strings and [os.path] *)

Module PyStr.

(** [s.endswith(suffix)] *)
Definition endswith (s suffix : string) : bool :=
  (String.length suffix <=? String.length s)%nat &&
  String.eqb
    (substring (String.length s - String.length suffix) (String.length suffix) s)
    suffix.

(** [s.rfind(c)] for a one-character [c]: the highest index, or [-1]. *)
Fixpoint rfind_from (c : ascii) (s : string) (i : Z) : Z :=
  match s with
  | EmptyString => (-1)%Z
  | String a s' =>
      let r := rfind_from c s' (i + 1)%Z in
      if (0 <=? r)%Z then r
      else if Ascii.eqb a c then i else (-1)%Z
  end.

Definition rfind (c : ascii) (s : string) : Z := rfind_from c s 0%Z.

(** [p[i:i+1] != '.'] *)
Definition not_dot_at (p : string) (i : nat) : bool :=
  negb (String.eqb (substring i 1 p) ".").

(** [genericpath._splitext] with [sep = '/'], no [altsep], [extsep = '.']:
    the extension starts at the last dot of the last component, unless
    that component has only leading dots before it. *)
Definition splitext (p : string) : string * string :=
  let sepIndex := rfind "/" p in
  let dotIndex := rfind "." p in
  if (sepIndex <? dotIndex)%Z then
    let filenameIndex := Z.to_nat (sepIndex + 1) in
    let dot := Z.to_nat dotIndex in
    if existsb (not_dot_at p) (seq filenameIndex (dot - filenameIndex)) then
      (substring 0 dot p, substring dot (String.length p - dot) p)
    else (p, "")
  else (p, "").

(** [posixpath.basename]: [p[p.rfind('/') + 1:]] *)
Definition basename (p : string) : string :=
  let i := Z.to_nat (rfind "/" p + 1) in
  substring i (String.length p - i) p.

(** ['/'.join(components)] *)
Fixpoint join (l : list string) : string :=
  match l with
  | [] => ""
  | [c] => c
  | c :: l' => c +:+ "/" +:+ join l'
  end.

(** [p.split('/')], on the characters of [p]; [acc] is the component
    being read, reversed. *)
Fixpoint split_from (acc : string) (p : string) : list string :=
  match p with
  | EmptyString => [acc]
  | String a p' =>
      if Ascii.eqb a "/" then acc :: split_from "" p'
      else split_from (acc +:+ String a "") p'
  end.

(** The components of a relative path string; the empty components that
    [split] yields are dropped, as [abspath] and [relpath] do. *)
Definition components (p : string) : list string :=
  filter (λ c, c ≠ "") (split_from "" p).

(** The longest common prefix of two component lists is dropped from
    both ([posixpath.relpath] calls [commonprefix] for its length). *)
Fixpoint strip_common (path start : list string) : list string * list string :=
  match path, start with
  | a :: path', b :: start' =>
      if String.eqb a b then strip_common path' start' else (path, start)
  | _, _ => (path, start)
  end.

(** [posixpath.relpath(path, start)] on absolute component lists. *)
Definition relpath (path start : list string) : string :=
  let '(rest, up) := strip_common path start in
  let rel_list := replicate (length up) ".." ++ rest in
  match rel_list with
  | [] => "."
  | _ => join rel_list
  end.

End PyStr.

(** ** Python values, exceptions and results *)

(** The objects [yaml.safe_load] can hand back, as far as the code looks at
    them: it calls [.get] on the document and passes the description to
    [json.dump].  A date (a YAML timestamp) is a value [json.dump]
    refuses. *)
Inductive pyval : Type :=
| PyNone
| PyInt (z : Z)
| PyString (s : string)
| PyDate (iso : string)
| PyList (l : list pyval)
| PyDict (kv : list (string * pyval)).

(** The exceptions the function can raise. *)
Inductive exn : Type :=
| OSError             (* open / md5 on a missing, unreadable or directory path *)
| UnicodeDecodeError  (* reading, as text, bytes that are not in the encoding *)
| YAMLError           (* yaml.safe_load on text that is not YAML *)
| ValueError          (* yaml.safe_load on a scalar its constructor refuses *)
| AttributeError      (* .get on an object that is not a dict *)
| KeyError            (* path_to_entity[...] on a missing key *)
| TypeError.          (* json.dump on an object that is not serializable *)

Inductive result (A : Type) : Type :=
| Ok (a : A)
| Raise (e : exn).
Arguments Ok {A} a.
Arguments Raise {A} e.

(** A raised exception ends the computation; [x ← r; k] runs [k] on the
    value of [r] otherwise. *)
Global Instance result_bind : MBind result := λ A B k r,
  match r with
  | Ok a => k a
  | Raise e => Raise e
  end.

(** [d.get(key, default)] on the key-value pairs of a dict. *)
Fixpoint dict_get (kv : list (string * pyval)) (key : string) (default : pyval) : pyval :=
  match kv with
  | [] => default
  | (k, v) :: kv' => if String.eqb k key then v else dict_get kv' key default
  end.

(** [obj.get(key, default)]: only a dict has the method. *)
Definition py_get (obj : pyval) (key : string) (default : pyval) : result pyval :=
  match obj with
  | PyDict kv => Ok (dict_get kv key default)
  | _ => Raise AttributeError
  end.

(** Whether [json.dump] accepts the value. *)
Fixpoint json_serializable (v : pyval) : bool :=
  match v with
  | PyDate _ => false
  | PyList l => forallb json_serializable l
  | PyDict kv => forallb (λ p, json_serializable p.2) kv
  | _ => true
  end.

(** ** The disk *)

(** What [yaml.safe_load(file)] does on a file opened for reading as
    text. *)
Inductive yaml_text : Type :=
| NotText                  (* bytes that do not decode: UnicodeDecodeError *)
| NotYaml                  (* a syntax error: yaml.YAMLError *)
| BadValue                 (* a scalar, such as a date out of range, that
                              its constructor refuses: ValueError *)
| Loads (doc : pyval).     (* the object the text denotes *)

(** A file, by what the code can observe of it. *)
Record file := File_ {
  readable : bool;         (* whether open(...) for reading succeeds *)
  digest : string;         (* the MD5 of its bytes, in hexadecimal *)
  text : yaml_text
}.

Inductive node : Type :=
| File (f : file)
| Dir (children : list (string * node)).   (* in the order scandir lists them *)

Definition is_dir (n : node) : bool :=
  match n with Dir _ => true | File _ => false end.

Fixpoint assoc (name : string) (children : list (string * node)) : option node :=
  match children with
  | [] => None
  | (k, n) :: rest => if String.eqb k name then Some n else assoc name rest
  end.

(** The node an absolute path leads to. *)
Fixpoint lookup_node (p : list string) (n : node) {struct p} : option node :=
  match p with
  | [] => Some n
  | c :: p' =>
      match n with
      | Dir children =>
          match assoc c children with
          | Some n' => lookup_node p' n'
          | None => None
          end
      | File _ => None
      end
  end.

(** Names a directory entry can have. *)
Definition valid_name (s : string) : bool :=
  negb (String.eqb s "") && negb (String.eqb s ".") && negb (String.eqb s "..")
  && (PyStr.rfind "/" s <? 0)%Z.

(** A disk as a file system keeps it: in every directory the names are
    valid and pairwise distinct. *)
Fixpoint well_formed (n : node) : bool :=
  match n with
  | File _ => true
  | Dir children =>
      bool_decide (NoDup children.*1)
      && forallb (λ p, valid_name p.1 && well_formed p.2) children
  end.

(** The process state the function reads besides its arguments. *)
Record world := World {
  disk : node;                (* the root directory "/" *)
  cwd : list string;          (* os.getcwd(), as components *)
  now : string                (* datetime.now().isoformat() *)
}.

(** [os.path.exists(p)] for a relative path string. *)
Definition os_path_exists (w : world) (p : string) : bool :=
  bool_decide (is_Some (lookup_node (cwd w ++ PyStr.components p) (disk w))).

(** Modelled from the spec: [morpc.md5] is a function of the MORPC
    library; section 4.1 gives its contract: the MD5 digest of a readable
    file, and an I/O error for a path that does not exist or cannot be
    read. *)
Definition md5 (w : world) (p : list string) : result string :=
  match lookup_node p (disk w) with
  | Some (File f) => if readable f then Ok (digest f) else Raise OSError
  | _ => Raise OSError
  end.

(** ** The walk *)

Inductive etype : Type := Dataset | FileT | Directory.

Global Instance etype_eq_dec : EqDecision etype.
Proof. solve_decision. Defined.

(** One dictionary of [contents]: ["type"], ["path"], ["root"]. *)
Record item := Item {
  item_type : etype;
  item_path : string;          (* relative to the walked directory *)
  item_root : list string      (* the [root] os.walk reported, absolute *)
}.

Definition file_names (children : list (string * node)) : list string :=
  (filter (λ p, is_dir p.2 = false) children).*1.

Definition dir_names (children : list (string * node)) : list string :=
  (filter (λ p, is_dir p.2 = true) children).*1.

Section Walk.
Variable omit_names : list string.

Definition should_omit (name : string) : bool :=
  existsb (λ ext, PyStr.endswith name ext) [".git"; ".ipynb_checkpoints"]
  || bool_decide (name ∈ omit_names).

(** [os.walk(top)], top-down, as driven by the loop of
    [list_directory_contents]: the loop body replaces [dirs] in place by
    the names it keeps before the generator goes on, so the generator
    reports and descends into those only.  A [top] that is not a
    directory yields nothing. *)
Fixpoint os_walk (top : list string) (n : node) {struct n}
  : list (list string * list string * list string) :=
  match n with
  | File _ => []
  | Dir children =>
      (top, filter (λ d, should_omit d = false) (dir_names children),
       file_names children)
      :: (children ≫= λ p, if is_dir p.2 && negb (should_omit p.1)
                           then os_walk (top ++ [p.1]) p.2 else [])
  end.

(** The body of the loop for one [(root, dirs, files)]. *)
Definition walk_body (directory : list string)
    (v : list string * list string * list string) : list item :=
  let '(root, dirs, files) := v in
  ((λ name, Item FileT (PyStr.relpath (root ++ [name]) directory) root)
     <$> filter (λ name, should_omit name = false) files)
  ++
  ((λ name, Item Directory (PyStr.relpath (root ++ [name]) directory) root)
     <$> filter (λ name, should_omit name = false) dirs).

Definition list_directory_contents (w : world) (directory : list string)
  : list item :=
  match lookup_node directory (disk w) with
  | Some n => os_walk directory n ≫= walk_body directory
  | None => []
  end.

End Walk.

(** ** The manifest *)

(** An entity dictionary of the graph.  A key the code may leave out is an
    [option]; [hasPart] holds the ["@id"] of each part, in order. *)
Record entity := Entity {
  ent_id : string;                                  (* "@id" *)
  ent_type : etype;                                 (* "@type" *)
  name : string;
  dateCreated : option string;
  description : option pyval;
  contentChecksum : option (list (string * string)); (* algorithm, value *)
  hasPart : option (list string);
  isDescribedBy : option string
}.

Record metadata := Metadata {
  context : string;             (* "@context" *)
  graph : list entity           (* "@graph" *)
}.

Definition set_description (d : pyval) (e : entity) : entity :=
  Entity (ent_id e) (ent_type e) (name e) (dateCreated e) (Some d)
         (contentChecksum e) (hasPart e) (isDescribedBy e).

Definition set_contentChecksum (c : list (string * string)) (e : entity) : entity :=
  Entity (ent_id e) (ent_type e) (name e) (dateCreated e) (description e)
         (Some c) (hasPart e) (isDescribedBy e).

(** [if "hasPart" not in e: e["hasPart"] = []] and then
    [e["hasPart"].append({"@id": child})]. *)
Definition append_hasPart (child : string) (e : entity) : entity :=
  Entity (ent_id e) (ent_type e) (name e) (dateCreated e) (description e)
         (contentChecksum e) (Some (default [] (hasPart e) ++ [child]))
         (isDescribedBy e).

Definition set_isDescribedBy (r : string) (e : entity) : entity :=
  Entity (ent_id e) (ent_type e) (name e) (dateCreated e) (description e)
         (contentChecksum e) (hasPart e) (Some r).

Definition resource_suffix : string := ".resource.yaml".

(** [f"{os.path.splitext(path)[0]}.resource.yaml"] *)
Definition resource_file_of (path : string) : string :=
  (PyStr.splitext path).1 +:+ resource_suffix.

(** The test both loops make before they look for a resource file. *)
Definition looks_for_resource (it : item) : bool :=
  bool_decide (item_type it = FileT)
  && negb (PyStr.endswith (item_path it) resource_suffix).

(** The state of ['ro-crate-metadata.json'] after the call, against what
    it was before. *)
Inductive output : Type :=
| Untouched                  (* never opened: as it was, or still absent *)
| Truncated                  (* opened with 'w', the dump did not finish *)
| Dumped (doc : metadata).   (* the whole document *)

Section Build.
Variable w : world.
Variable directory : list string.

Definition get_description_from_resource_file (resource_file : string)
  : result pyval :=
  if os_path_exists w resource_file then
    match lookup_node (cwd w ++ PyStr.components resource_file) (disk w) with
    | Some (File f) =>
        if readable f then
          match text f with
          | Loads resource_data => py_get resource_data "description" (PyString "")
          | NotText => Raise UnicodeDecodeError
          | NotYaml => Raise YAMLError
          | BadValue => Raise ValueError
          end
        else Raise OSError
    | _ => Raise OSError
    end
  else Ok (PyString "").

(** The root dataset, the first element of the graph. *)
Definition root_entity : entity :=
  Entity "./" Dataset (default "" (last directory)) (Some (now w))
         None None (Some []) None.

(** The body of the first loop up to [metadata["@graph"].append(entity)]. *)
Definition make_entity (it : item) : result entity :=
  let entity := Entity (item_path it) (item_type it)
                       (PyStr.basename (item_path it))
                       None None None None None in
  if looks_for_resource it then
    let resource_file := resource_file_of (item_path it) in
    entity ← (if os_path_exists w resource_file then
                description ← get_description_from_resource_file resource_file;
                Ok (set_description description entity)
              else Ok entity);
    let file_full_path := directory ++ PyStr.components (item_path it) in
    checksum ← md5 w file_full_path;
    Ok (set_contentChecksum [("MD5", checksum)] entity)
  else Ok entity.

(** The first loop.  The entity appended to the graph at position
    [length graph] is the one [path_to_entity] records for its path. *)
Fixpoint first_loop (contents : list item)
    (graph : list entity) (path_to_entity : gmap string nat)
  : result (list entity * gmap string nat) :=
  match contents with
  | [] => Ok (graph, path_to_entity)
  | it :: rest =>
      entity ← make_entity it;
      first_loop rest (graph ++ [entity])
                 (<[item_path it := length graph]> path_to_entity)
  end.

Definition parent_path_of (it : item) : string :=
  let parent_path := PyStr.relpath (item_root it) directory in
  if String.eqb parent_path "." then "./" else parent_path.

(** The body of the second loop. *)
Definition link_item (path_to_entity : gmap string nat)
    (graph : list entity) (it : item) : result (list entity) :=
  let graph :=
    match path_to_entity !! parent_path_of it with
    | Some parent => alter (append_hasPart (item_path it)) parent graph
    | None => graph
    end in
  if looks_for_resource it then
    let resource_file := resource_file_of (item_path it) in
    if bool_decide (is_Some (path_to_entity !! resource_file)) then
      match path_to_entity !! item_path it with
      | Some item_entity => Ok (alter (set_isDescribedBy resource_file) item_entity graph)
      | None => Raise KeyError
      end
    else Ok graph
  else Ok graph.

Fixpoint second_loop (path_to_entity : gmap string nat)
    (contents : list item) (graph : list entity) : result (list entity) :=
  match contents with
  | [] => Ok graph
  | it :: rest =>
      graph ← link_item path_to_entity graph it;
      second_loop path_to_entity rest graph
  end.

(** Everything before the file is opened: the graph for given contents. *)
Definition build_graph (contents : list item) : result (list entity) :=
  '(graph, path_to_entity) ← first_loop contents [root_entity] ∅;
  second_loop path_to_entity contents graph.

Definition entity_serializable (e : entity) : bool :=
  match description e with
  | Some d => json_serializable d
  | None => true
  end.

(** [with open('ro-crate-metadata.json', 'w') as f: json.dump(...)]: the
    file is created or emptied by [open]; [json.dump] then writes the
    document piece by piece and stops at a value it cannot encode. *)
Definition write_metadata (doc : metadata) : output * result () :=
  match lookup_node (cwd w) (disk w),
        lookup_node (cwd w ++ ["ro-crate-metadata.json"]) (disk w) with
  | Some (Dir _), Some (File _) | Some (Dir _), None =>
      if forallb entity_serializable (graph doc)
      then (Dumped doc, Ok ())
      else (Truncated, Raise TypeError)
  | _, _ => (Untouched, Raise OSError)
  end.

Definition create_and_write_ro_crate_metadata (omit_names : list string)
  : output * result () :=
  let contents := list_directory_contents omit_names w directory in
  match build_graph contents with
  | Ok graph =>
      write_metadata (Metadata "https://w3id.org/ro/crate/1.1/context" graph)
  | Raise e => (Untouched, Raise e)
  end.

End Build.

(** The manifest the function builds in memory for a directory of the
    disk. *)
Definition manifest (w : world) (directory omit_names : list string)
  : result (list entity) :=
  build_graph w directory (list_directory_contents omit_names w directory).

(** The position, in [contents], of the last item with a given path: the
    one whose entity [path_to_entity] ends up holding. *)
Fixpoint last_index (p : string) (contents : list item) : option nat :=
  match contents with
  | [] => None
  | it :: rest =>
      match last_index p rest with
      | Some j => Some (S j)
      | None => if decide (item_path it = p) then Some 0 else None
      end
  end.

(** What the second loop does to the entity at position [j], one item at a
    time. *)
Definition link_entity (directory : list string) (m : gmap string nat)
    (j : nat) (e : entity) (it : item) : entity :=
  let e := if decide (m !! parent_path_of directory it = Some j)
           then append_hasPart (item_path it) e else e in
  if looks_for_resource it
     && bool_decide (is_Some (m !! resource_file_of (item_path it)))
     && bool_decide (m !! item_path it = Some j)
  then set_isDescribedBy (resource_file_of (item_path it)) e else e.

(** [hasPart] after the parts [ks] were appended, one by one. *)
Definition add_parts (h : option (list string)) (ks : list string)
  : option (list string) :=
  match ks with
  | [] => h
  | _ => Some (default [] h ++ ks)
  end.

(** The items for which the second loop sets [isDescribedBy] on the entity
    at position [j]. *)
Definition described_at (m : gmap string nat) (j : nat) (it : item) : Prop :=
  looks_for_resource it = true
  ∧ is_Some (m !! resource_file_of (item_path it))
  ∧ m !! item_path it = Some j.

Global Instance described_at_dec m j it : Decision (described_at m j it).
Proof. unfold described_at. apply _. Defined.

(** Whether a character occurs in a string. *)
Fixpoint occurs (c : ascii) (s : string) : bool :=
  match s with
  | EmptyString => false
  | String a s' => Ascii.eqb a c || occurs c s'
  end.

Definition slash_free (s : string) : Prop := occurs "/" s = false.

(** Components that are all valid names. *)
Definition valid_path (cs : list string) : Prop :=
  Forall (λ c, valid_name c = true) cs.

(** Names the walk keeps. *)
Abbreviation kept omit_names := (λ name : string, should_omit omit_names name = false).

(** What [os.walk] reports for the directory with the given children. *)
Definition visit (omit_names : list string) (root : list string)
    (children : list (string * node)) : list string * list string * list string :=
  (root, filter (kept omit_names) (dir_names children), file_names children).

(** The item for the node [c] found under the name [name] in [root]. *)
Definition item_of (directory root : list string) (name : string) (c : node) : item :=
  Item (if is_dir c then Directory else FileT)
       (PyStr.relpath (root ++ [name]) directory) root.

(** ** Example disks *)

Module Example.

Definition data_file (d : string) : file :=
  File_ true d (Loads (PyString "data")).

Definition descriptor_file (t : yaml_text) : file :=
  File_ true "0cc175b9c0f1b6a8" t.

Definition out_dir : list string := ["home"; "out"].

(** A disk whose directory [/home/out] has the given entries; the
    process runs in that directory. *)
Definition on_disk (out : list (string * node)) : world :=
  World (Dir [("home", Dir [("out", Dir out)])]) out_dir "2024-06-14T12:00:00".

Definition attribute_table : yaml_text :=
  Loads (PyDict [("name", PyString "a");
                 ("description", PyString "Attribute table")]).

(** [a.csv] with its resource file, and [b/x.txt]. *)
Definition scenario : world :=
  on_disk [("a.csv", File (data_file "m_a"));
           ("a.resource.yaml", File (descriptor_file attribute_table));
           ("b", Dir [("x.txt", File (data_file "m_x"))])].

Definition single : world := on_disk [("a.csv", File (data_file "m_a"))].

(** [a.csv] and a resource file with the given text. *)
Definition with_descriptor (t : yaml_text) : world :=
  on_disk [("a.csv", File (data_file "m_a"));
           ("a.resource.yaml", File (descriptor_file t))].

Definition empty_dir : world := on_disk [("d", Dir [])].

Definition tmp_dirs : world :=
  on_disk [("tmp", Dir [("y.txt", File (data_file "m_y"))]);
           ("tmp2", Dir [("z.txt", File (data_file "m_z"))]);
           (".git", Dir [("config", File (data_file "m_c"))])].

Definition a_csv : item := Item FileT "a.csv" out_dir.

(** Contents for [scenario] in which the directory [b], which has a
    child, and the file [a.csv], whose resource file is listed, both occur
    twice. *)
Definition duplicates : list item :=
  [Item Directory "b" out_dir; Item Directory "b" out_dir;
   Item FileT "b/x.txt" (out_dir ++ ["b"]);
   a_csv; a_csv;
   Item FileT "a.resource.yaml" out_dir].

(** The graph built for [scenario] from [duplicates]. *)
Definition duplicates_graph : list entity :=
  [root_entity scenario out_dir;
   Entity "b" Directory "b" None None None None None;
   Entity "b" Directory "b" None None None (Some ["b/x.txt"]) None;
   Entity "b/x.txt" FileT "x.txt" None None (Some [("MD5", "m_x")]) None None;
   Entity "a.csv" FileT "a.csv" None (Some (PyString "Attribute table"))
          (Some [("MD5", "m_a")]) None None;
   Entity "a.csv" FileT "a.csv" None (Some (PyString "Attribute table"))
          (Some [("MD5", "m_a")]) None (Some "a.resource.yaml");
   Entity "a.resource.yaml" FileT "a.resource.yaml" None None None None None].

(** The graph built for [tmp_dirs] when ["tmp"] is omitted. *)
Definition tmp_graph : list entity :=
  [root_entity tmp_dirs out_dir;
   Entity "tmp2" Directory "tmp2" None None None (Some ["tmp2/z.txt"]) None;
   Entity "tmp2/z.txt" FileT "z.txt" None None (Some [("MD5", "m_z")]) None None].

(** The graph built for [empty_dir]. *)
Definition empty_dir_graph : list entity :=
  [root_entity empty_dir out_dir;
   Entity "d" Directory "d" None None None None None].

(** The graph built for [scenario]. *)
Definition scenario_graph : list entity :=
  [root_entity scenario out_dir;
   Entity "a.csv" FileT "a.csv" None (Some (PyString "Attribute table"))
          (Some [("MD5", "m_a")]) None (Some "a.resource.yaml");
   Entity "a.resource.yaml" FileT "a.resource.yaml" None None None None None;
   Entity "b" Directory "b" None None None (Some ["b/x.txt"]) None;
   Entity "b/x.txt" FileT "x.txt" None None (Some [("MD5", "m_x")]) None None].

End Example.

(** ** The specification's statements that the code does not meet *)

(** "checksum is present on an entity iff the entry is a File". *)
Definition spec_checksum_iff_file (g : list entity) : Prop :=
  ∀ e, e ∈ g → (is_Some (contentChecksum e) ↔ ent_type e = FileT).

(** "the description is attached iff the candidate descriptor path exists
    among the entries produced by the walk". *)
Definition spec_description_iff_walked (contents : list item) (g : list entity) : Prop :=
  ∀ e, e ∈ g → ent_type e = FileT →
       PyStr.endswith (ent_id e) resource_suffix = false →
       (is_Some (description e)
        ↔ resource_file_of (ent_id e) ∈ item_path <$> contents).

(** "the destination file either contains the complete document or, on
    failure, is not created or overwritten". *)
Definition spec_all_or_nothing (r : output * result ()) : Prop :=
  match r with
  | (Dumped _, Ok _) => True
  | (Untouched, Raise _) => True
  | _ => False
  end.


(** "an empty directory's entity has an empty hasPart in the finished
    graph". *)
Definition spec_empty_hasPart (g : list entity) (id : string) : Prop :=
  ∀ e, e ∈ g → ent_id e = id → hasPart e = Some [].

(** ** The first version of the function

    The notebook's first version,
    [create_and_write_ro_crate_metadata(directory, output_file)]: the walk
    omits nothing, a resource file is named [<stem>_resource.yaml], and the
    document goes to [output_file].  [get_description_from_resource_file]
    and the root entity are the same code as in the later version. *)

Module V1.

Definition resource_suffix : string := "_resource.yaml".

(** [f"{os.path.splitext(path)[0]}_resource.yaml"] *)
Definition resource_file_of (path : string) : string :=
  (PyStr.splitext path).1 +:+ resource_suffix.

Definition looks_for_resource (it : item) : bool :=
  bool_decide (item_type it = FileT)
  && negb (PyStr.endswith (item_path it) resource_suffix).

(** [os.walk(top)], top-down; the loop leaves [dirs] as it is. *)
Fixpoint os_walk (top : list string) (n : node) {struct n}
  : list (list string * list string * list string) :=
  match n with
  | File _ => []
  | Dir children =>
      (top, dir_names children, file_names children)
      :: (children ≫= λ p, if is_dir p.2
                           then os_walk (top ++ [p.1]) p.2 else [])
  end.

Definition walk_body (directory : list string)
    (v : list string * list string * list string) : list item :=
  let '(root, dirs, files) := v in
  ((λ name, Item FileT (PyStr.relpath (root ++ [name]) directory) root) <$> files)
  ++
  ((λ name, Item Directory (PyStr.relpath (root ++ [name]) directory) root) <$> dirs).

Definition list_directory_contents (w : world) (directory : list string)
  : list item :=
  match lookup_node directory (disk w) with
  | Some n => os_walk directory n ≫= walk_body directory
  | None => []
  end.

Definition make_entity (w : world) (directory : list string) (it : item)
  : result entity :=
  let entity := Entity (item_path it) (item_type it)
                       (PyStr.basename (item_path it))
                       None None None None None in
  if looks_for_resource it then
    let resource_file := resource_file_of (item_path it) in
    entity ← (if os_path_exists w resource_file then
                description ← get_description_from_resource_file w resource_file;
                Ok (set_description description entity)
              else Ok entity);
    let file_full_path := directory ++ PyStr.components (item_path it) in
    checksum ← md5 w file_full_path;
    Ok (set_contentChecksum [("MD5", checksum)] entity)
  else Ok entity.

Fixpoint first_loop (w : world) (directory : list string) (contents : list item)
    (graph : list entity) (path_to_entity : gmap string nat)
  : result (list entity * gmap string nat) :=
  match contents with
  | [] => Ok (graph, path_to_entity)
  | it :: rest =>
      entity ← make_entity w directory it;
      first_loop w directory rest (graph ++ [entity])
                 (<[item_path it := length graph]> path_to_entity)
  end.

Definition link_item (directory : list string) (path_to_entity : gmap string nat)
    (graph : list entity) (it : item) : result (list entity) :=
  let graph :=
    match path_to_entity !! parent_path_of directory it with
    | Some parent => alter (append_hasPart (item_path it)) parent graph
    | None => graph
    end in
  if looks_for_resource it then
    let resource_file := resource_file_of (item_path it) in
    if bool_decide (is_Some (path_to_entity !! resource_file)) then
      match path_to_entity !! item_path it with
      | Some item_entity => Ok (alter (set_isDescribedBy resource_file) item_entity graph)
      | None => Raise KeyError
      end
    else Ok graph
  else Ok graph.

Fixpoint second_loop (directory : list string) (path_to_entity : gmap string nat)
    (contents : list item) (graph : list entity) : result (list entity) :=
  match contents with
  | [] => Ok graph
  | it :: rest =>
      graph ← link_item directory path_to_entity graph it;
      second_loop directory path_to_entity rest graph
  end.

Definition build_graph (w : world) (directory : list string)
    (contents : list item) : result (list entity) :=
  '(graph, path_to_entity) ← first_loop w directory contents [root_entity w directory] ∅;
  second_loop directory path_to_entity contents graph.

(** [with open(output_file, 'w') as f: json.dump(metadata, f, indent=2)],
    for an [output_file] relative to the working directory. *)
Definition write_metadata (w : world) (output_file : string) (doc : metadata)
  : output * result () :=
  match PyStr.components output_file with
  | [] => (Untouched, Raise OSError)
  | c :: cs =>
      match lookup_node (cwd w ++ removelast (c :: cs)) (disk w),
            lookup_node (cwd w ++ c :: cs) (disk w) with
      | Some (Dir _), Some (File _) | Some (Dir _), None =>
          if forallb entity_serializable (graph doc)
          then (Dumped doc, Ok ())
          else (Truncated, Raise TypeError)
      | _, _ => (Untouched, Raise OSError)
      end
  end.

Definition create_and_write_ro_crate_metadata (w : world)
    (directory : list string) (output_file : string) : output * result () :=
  let contents := list_directory_contents w directory in
  match build_graph w directory contents with
  | Ok graph =>
      write_metadata w output_file
        (Metadata "https://w3id.org/ro/crate/1.1/context" graph)
  | Raise e => (Untouched, Raise e)
  end.

End V1.

(** ** Properties of a whole disk *)

(** Every entry of every directory below [n], by name and node, passes
    the test. *)
Fixpoint every_entry (P : string → node → bool) (n : node) : bool :=
  match n with
  | File _ => true
  | Dir children => forallb (λ p, P p.1 p.2 && every_entry P p.2) children
  end.

(** No name ends in [.git] or [.ipynb_checkpoints]. *)
Definition no_reserved_name (k : string) (c : node) : bool :=
  negb (should_omit [] k).

(** Files can be read. *)
Definition file_readable (k : string) (c : node) : bool :=
  match c with
  | File f => readable f
  | Dir _ => true
  end.

(** What is named [*.resource.yaml] is a readable file that holds a
    mapping. *)
Definition descriptor_loads (k : string) (c : node) : bool :=
  if PyStr.endswith k resource_suffix then
    match c with
    | File f =>
        readable f && match text f with
                      | Loads (PyDict _) => true
                      | _ => false
                      end
    | Dir _ => false
    end
  else true.

(** The same world at another time. *)
Definition at_time (t : string) (w : world) : world :=
  World (disk w) (cwd w) t.

(** * Facts about path strings *)

Example splitext_csv : PyStr.splitext "b/a.csv" = ("b/a", ".csv").
Proof. reflexivity. Qed.
Example splitext_hidden : PyStr.splitext "b.d/.bashrc" = ("b.d/.bashrc", "").
Proof. reflexivity. Qed.
Example splitext_two : PyStr.splitext "x.tar.gz" = ("x.tar", ".gz").
Proof. reflexivity. Qed.
Example basename_nested : PyStr.basename "b/x.txt" = "x.txt".
Proof. reflexivity. Qed.
Example components_nested : PyStr.components "b/x.txt" = ["b"; "x.txt"].
Proof. reflexivity. Qed.
Example relpath_below :
  PyStr.relpath ["home"; "out"; "b"; "x.txt"] ["home"; "out"] = "b/x.txt".
Proof. reflexivity. Qed.
Example relpath_self : PyStr.relpath ["home"; "out"] ["home"; "out"] = ".".
Proof. reflexivity. Qed.
Example endswith_yes : PyStr.endswith "a.resource.yaml" ".resource.yaml" = true.
Proof. reflexivity. Qed.
Example endswith_short : PyStr.endswith "yaml" ".resource.yaml" = false.
Proof. reflexivity. Qed.

Section PathFacts.

Lemma rfind_from_range c s i :
  PyStr.rfind_from c s i = (-1)%Z ∨ (i ≤ PyStr.rfind_from c s i)%Z.
Proof.
  revert i. induction s as [|a s IH]; intros i; simpl; [by left|].
  destruct (IH (i + 1)%Z) as [->| Hr]; simpl.
  - destruct (Ascii.eqb a c); [right; lia | by left].
  - destruct (0 <=? _)%Z eqn:E; [right; lia|].
    destruct (Ascii.eqb a c); [right; lia | by left].
Qed.

Lemma rfind_from_occurs c s i :
  (0 ≤ i)%Z → (PyStr.rfind_from c s i <? 0)%Z = negb (occurs c s).
Proof.
  revert i. induction s as [|a s IH]; intros i Hi; simpl; [done|].
  specialize (IH (i + 1)%Z ltac:(lia)).
  destruct (rfind_from_range c s (i + 1)) as [Hr | Hr].
  - rewrite Hr in *. simpl in *.
    destruct (Ascii.eqb a c); simpl; [apply Z.ltb_ge; lia | done].
  - destruct (0 <=? _)%Z eqn:E; [|apply Z.leb_gt in E; lia].
    assert ((PyStr.rfind_from c s (i + 1) <? 0)%Z = false) as E2
      by (apply Z.ltb_ge; lia).
    rewrite E2 in IH |- *. destruct (occurs c s); [|done].
    by rewrite orb_true_r.
Qed.

Lemma valid_name_slash_free s : valid_name s = true → slash_free s.
Proof.
  unfold valid_name, slash_free, PyStr.rfind. intros H.
  apply andb_true_iff in H as [_ H].
  rewrite rfind_from_occurs in H by lia. by destruct (occurs "/" s).
Qed.

Lemma valid_name_nonempty s : valid_name s = true → s ≠ "".
Proof. intros H ->. discriminate. Qed.

Lemma valid_name_not_dot s : valid_name s = true → s ≠ ".".
Proof. intros H ->. discriminate. Qed.

(** A string is cut in one way only at its first slash. *)
Lemma first_slash_unique s1 s2 t1 t2 :
  slash_free s1 → slash_free s2 →
  s1 +:+ "/" +:+ t1 = s2 +:+ "/" +:+ t2 → s1 = s2 ∧ t1 = t2.
Proof.
  unfold slash_free. revert s2.
  induction s1 as [|a s1 IH]; intros [|b s2]; simpl; intros H1 H2 Heq.
  - by inversion Heq.
  - inversion Heq; subst. simpl in H2. discriminate.
  - inversion Heq; subst. simpl in H1. discriminate.
  - inversion Heq; subst.
    apply orb_false_iff in H1 as [_ H1]. apply orb_false_iff in H2 as [_ H2].
    destruct (IH s2 H1 H2) as [-> ->]; done.
Qed.

Lemma slash_free_no_cut s s2 t : slash_free s → s ≠ s2 +:+ "/" +:+ t.
Proof.
  unfold slash_free. revert s2.
  induction s as [|a s IH]; intros [|b s2]; simpl; intros H1 Heq;
    try discriminate.
  - inversion Heq; subst. simpl in H1. discriminate.
  - inversion Heq; subst. apply orb_false_iff in H1 as [_ H1].
    by eapply IH.
Qed.

Lemma join_cons c cs :
  cs ≠ [] → PyStr.join (c :: cs) = c +:+ "/" +:+ PyStr.join cs.
Proof. by destruct cs. Qed.

(** Joining valid components loses nothing. *)
Lemma join_inj cs1 cs2 :
  valid_path cs1 → valid_path cs2 → cs1 ≠ [] → cs2 ≠ [] →
  PyStr.join cs1 = PyStr.join cs2 → cs1 = cs2.
Proof.
  revert cs2. induction cs1 as [|c1 cs1 IH]; intros [|c2 cs2] V1 V2 N1 N2 Heq;
    try done.
  apply Forall_cons in V1 as [Hc1 V1]. apply Forall_cons in V2 as [Hc2 V2].
  destruct (decide (cs1 = [])) as [->|Hn1]; destruct (decide (cs2 = [])) as [->|Hn2].
  - simpl in Heq. by subst.
  - rewrite (join_cons c2 cs2 Hn2) in Heq. simpl in Heq.
    by apply slash_free_no_cut in Heq; [|apply valid_name_slash_free].
  - rewrite (join_cons c1 cs1 Hn1) in Heq. simpl in Heq. symmetry in Heq.
    by apply slash_free_no_cut in Heq; [|apply valid_name_slash_free].
  - rewrite (join_cons c1 cs1 Hn1), (join_cons c2 cs2 Hn2) in Heq.
    apply first_slash_unique in Heq as [-> Heq];
      [|by apply valid_name_slash_free..].
    f_equal. by apply IH.
Qed.

Lemma join_not_dot cs : valid_path cs → cs ≠ [] → PyStr.join cs ≠ ".".
Proof.
  intros V N Heq. destruct cs as [|c cs]; [done|].
  apply Forall_cons in V as [Hc V].
  destruct (decide (cs = [])) as [->|Hn].
  - simpl in Heq. by apply valid_name_not_dot in Hc.
  - rewrite (join_cons c cs Hn) in Heq. symmetry in Heq.
    by apply (slash_free_no_cut ".") in Heq.
Qed.

Lemma join_not_root_id cs : valid_path cs → cs ≠ [] → PyStr.join cs ≠ "./".
Proof.
  intros V N Heq. destruct cs as [|c cs]; [done|].
  apply Forall_cons in V as [Hc V].
  destruct (decide (cs = [])) as [->|Hn].
  - simpl in Heq. subst. discriminate.
  - rewrite (join_cons c cs Hn) in Heq.
    change "./" with ("." +:+ "/" +:+ "") in Heq.
    apply first_slash_unique in Heq as [-> _];
      [discriminate | by apply valid_name_slash_free | done].
Qed.

Lemma strip_common_below d rel : PyStr.strip_common (d ++ rel) d = (rel, []).
Proof.
  induction d as [|c d IH]; simpl; [by destruct rel|].
  by rewrite String.eqb_refl.
Qed.

(** [relpath] of a path below [start] is the join of what is below. *)
Lemma relpath_under d rel :
  PyStr.relpath (d ++ rel) d = match rel with [] => "." | _ => PyStr.join rel end.
Proof. unfold PyStr.relpath. by rewrite strip_common_below. Qed.

End PathFacts.

(** * Facts about the disk *)

Section DiskFacts.

Lemma node_nested_ind (P : node → Prop) :
  (∀ f, P (File f)) →
  (∀ children, Forall (λ p, P p.2) children → P (Dir children)) →
  ∀ n, P n.
Proof.
  intros Hfile Hdir. fix IH 1. intros [f|children]; [apply Hfile|].
  apply Hdir. induction children as [|[k c] rest IHrest]; constructor; auto.
Qed.

Lemma assoc_elem_of name children c :
  assoc name children = Some c → (name, c) ∈ children.
Proof.
  induction children as [|[k n] rest IH]; simpl; [done|].
  destruct (String.eqb_spec k name) as [->|Hne]; intros H.
  - inversion H; subst. left.
  - right. auto.
Qed.

Lemma assoc_NoDup name children c :
  NoDup children.*1 → (name, c) ∈ children → assoc name children = Some c.
Proof.
  induction children as [|[k n] rest IH]; simpl; intros Hnd Hin.
  - by apply elem_of_nil in Hin.
  - apply NoDup_cons in Hnd as [Hk Hnd].
    apply elem_of_cons in Hin as [Heq|Hin].
    + inversion Heq; subst. by rewrite String.eqb_refl.
    + destruct (String.eqb_spec k name) as [->|Hne]; [|auto].
      exfalso. apply Hk. apply list_elem_of_fmap. by exists (name, c).
Qed.

Lemma lookup_node_app p q n :
  lookup_node (p ++ q) n = lookup_node p n ≫= lookup_node q.
Proof.
  revert n. induction p as [|c p IH]; intros n; simpl; [done|].
  destruct n as [f|children]; [done|].
  destruct (assoc c children); [apply IH | done].
Qed.

Lemma lookup_node_snoc p name n c :
  lookup_node (p ++ [name]) n = Some c ↔
  ∃ children, lookup_node p n = Some (Dir children) ∧ assoc name children = Some c.
Proof.
  rewrite lookup_node_app. split.
  - destruct (lookup_node p n) as [[f|children]|] eqn:E; simpl; try done.
    destruct (assoc name children) eqn:E2; [|done].
    intros H. inversion H; subst. eauto.
  - intros (children & -> & Ha). simpl. by rewrite Ha.
Qed.

Lemma well_formed_Dir children :
  well_formed (Dir children) = true ↔
  NoDup children.*1 ∧
  ∀ k c, (k, c) ∈ children → valid_name k = true ∧ well_formed c = true.
Proof.
  simpl. rewrite andb_true_iff, bool_decide_eq_true, forallb_forall.
  split; intros [Hnd H]; split; try done.
  - intros k c Hin. apply list_elem_of_In in Hin.
    apply H in Hin. by apply andb_true_iff in Hin.
  - intros [k c] Hin. apply list_elem_of_In in Hin.
    apply andb_true_iff. by apply H.
Qed.

Lemma well_formed_lookup p n n' :
  well_formed n = true → lookup_node p n = Some n' →
  well_formed n' = true ∧ valid_path p.
Proof.
  revert n. induction p as [|c p IH]; intros n Hwf; simpl.
  - intros H. inversion H; subst. split; [done | constructor].
  - destruct n as [f|children]; [done|].
    destruct (assoc c children) as [n1|] eqn:E; [|done].
    intros H. apply assoc_elem_of in E.
    apply well_formed_Dir in Hwf as [_ Hall].
    destruct (Hall _ _ E) as [Hv Hwf1].
    destruct (IH _ Hwf1 H) as [? ?]. split; [done | by constructor].
Qed.

Lemma elem_of_file_names name children :
  name ∈ file_names children ↔ ∃ f, (name, File f) ∈ children.
Proof.
  unfold file_names. rewrite list_elem_of_fmap. split.
  - intros ([k c] & -> & Hin). apply list_elem_of_filter in Hin as [Hd Hin].
    destruct c as [f|ch]; [eauto | done].
  - intros (f & Hin). exists (name, File f). split; [done|].
    by apply list_elem_of_filter.
Qed.

Lemma elem_of_dir_names name children :
  name ∈ dir_names children ↔ ∃ ch, (name, Dir ch) ∈ children.
Proof.
  unfold dir_names. rewrite list_elem_of_fmap. split.
  - intros ([k c] & -> & Hin). apply list_elem_of_filter in Hin as [Hd Hin].
    destruct c as [f|ch]; [done | eauto].
  - intros (ch & Hin). exists (name, Dir ch). split; [done|].
    by apply list_elem_of_filter.
Qed.

Lemma NoDup_fst_filter (P : string * node → Prop) `{∀ x, Decision (P x)}
    (children : list (string * node)) :
  NoDup children.*1 → NoDup (filter P children).*1.
Proof.
  induction children as [|x rest IH]; simpl; [done|].
  intros Hnd. apply NoDup_cons in Hnd as [Hx Hnd].
  rewrite filter_cons. destruct (decide (P x)); [|auto].
  simpl. apply NoDup_cons. split; [|auto].
  intros Hin. apply Hx. apply list_elem_of_fmap in Hin as (y & Hy & Hin).
  apply list_elem_of_filter in Hin as [_ Hin].
  apply list_elem_of_fmap. eauto.
Qed.

End DiskFacts.

(** * Facts about the walk *)

Section WalkFacts.
Variable omit_names : list string.

Lemma os_walk_Dir top children :
  os_walk omit_names top (Dir children) =
  visit omit_names top children
  :: (children ≫= λ p, if is_dir p.2 && negb (should_omit omit_names p.1)
                        then os_walk omit_names (top ++ [p.1]) p.2 else []).
Proof. reflexivity. Qed.

(** Every triple of the walk is the report of a directory reached through
    kept names. *)
Lemma os_walk_sound n : ∀ top v,
  well_formed n = true → v ∈ os_walk omit_names top n →
  ∃ rel children,
    v = visit omit_names (top ++ rel) children
    ∧ lookup_node rel n = Some (Dir children)
    ∧ Forall (kept omit_names) rel.
Proof.
  induction n as [f|children IH] using node_nested_ind; intros top v Hwf Hin.
  - by apply elem_of_nil in Hin.
  - rewrite os_walk_Dir in Hin. apply elem_of_cons in Hin as [->|Hin].
    + exists [], children. rewrite app_nil_r. by split_and!.
    + apply list_elem_of_bind in Hin as ([d c] & Hv & Hdc). simpl in Hv.
      destruct (is_dir c && negb (should_omit omit_names d)) eqn:E;
        [|by apply elem_of_nil in Hv].
      apply andb_true_iff in E as [_ Hk]. apply negb_true_iff in Hk.
      apply well_formed_Dir in Hwf as [Hnd Hall].
      destruct (Hall _ _ Hdc) as [_ Hwfc].
      rewrite Forall_forall in IH.
      destruct (IH (d, c) Hdc (top ++ [d]) v Hwfc Hv)
        as (rel & ch & -> & Hl & Hrel).
      exists (d :: rel), ch. split_and!.
      * by rewrite <- app_assoc.
      * simpl. by rewrite (assoc_NoDup _ _ _ Hnd Hdc).
      * by constructor.
Qed.

(** Every directory reached through kept names is reported. *)
Lemma os_walk_complete rel : ∀ n top children,
  lookup_node rel n = Some (Dir children) → Forall (kept omit_names) rel →
  visit omit_names (top ++ rel) children ∈ os_walk omit_names top n.
Proof.
  induction rel as [|d rel IH]; intros n top children Hl Hk.
  - simpl in Hl. inversion Hl; subst. rewrite app_nil_r, os_walk_Dir. left.
  - simpl in Hl. destruct n as [f|ch]; [done|].
    destruct (assoc d ch) as [c|] eqn:E; [|done].
    apply Forall_cons in Hk as [Hd Hk].
    rewrite os_walk_Dir. right. apply list_elem_of_bind.
    exists (d, c). split; [|by apply assoc_elem_of]. simpl.
    assert (is_dir c = true) as ->.
    { destruct c; [|done]. by destruct rel. }
    rewrite Hd. simpl.
    replace (top ++ d :: rel) with ((top ++ [d]) ++ rel)
      by (by rewrite <- app_assoc).
    by apply IH.
Qed.

Lemma os_walk_NoDup n : ∀ top,
  well_formed n = true → NoDup (os_walk omit_names top n).
Proof.
  induction n as [f|children IH] using node_nested_ind; intros top Hwf.
  - constructor.
  - rewrite os_walk_Dir. pose proof Hwf as Hwf'.
    apply well_formed_Dir in Hwf as [Hnd Hall].
    apply NoDup_cons. split.
    + intros Hin. apply list_elem_of_bind in Hin as ([d c] & Hv & Hdc).
      simpl in Hv. destruct (is_dir c && _); [|by apply elem_of_nil in Hv].
      destruct (Hall _ _ Hdc) as [_ Hwfc].
      apply os_walk_sound in Hv as (rel & ch & Heq & _); [|done].
      apply (f_equal (λ v, v.1.1)) in Heq. simpl in Heq. rename Heq into Hroot.
      apply (f_equal length) in Hroot. rewrite !length_app in Hroot.
      simpl in Hroot. lia.
    + apply NoDup_bind.
      * intros [d1 c1] [d2 c2] v H1 H2 Hv1 Hv2. simpl in *.
        destruct (is_dir c1 && _); [|by apply elem_of_nil in Hv1].
        destruct (is_dir c2 && _); [|by apply elem_of_nil in Hv2].
        destruct (Hall _ _ H1) as [_ Hwf1]. destruct (Hall _ _ H2) as [_ Hwf2].
        apply os_walk_sound in Hv1 as (rel1 & ch1 & Heq1 & _); [|done].
        apply os_walk_sound in Hv2 as (rel2 & ch2 & Heq2 & _); [|done].
        rewrite Heq1 in Heq2.
        apply (f_equal (λ v, v.1.1)) in Heq2. simpl in Heq2. rename Heq2 into Hroot.
        rewrite <- !app_assoc in Hroot. apply app_inv_head in Hroot.
        inversion Hroot; subst.
        pose proof (assoc_NoDup _ _ _ Hnd H1) as E1.
        pose proof (assoc_NoDup _ _ _ Hnd H2) as E2. congruence.
      * intros [d c] Hdc. simpl. destruct (is_dir c && _); [|constructor].
        destruct (Hall _ _ Hdc) as [_ Hwfc]. rewrite Forall_forall in IH.
        by apply (IH (d, c)).
      * by apply NoDup_fmap_1 in Hnd.
Qed.

(** Two triples of one walk with the same root are the same triple. *)
Lemma os_walk_root_inj n top v1 v2 :
  well_formed n = true →
  v1 ∈ os_walk omit_names top n → v2 ∈ os_walk omit_names top n →
  v1.1.1 = v2.1.1 → v1 = v2.
Proof.
  intros Hwf H1 H2 Heq.
  apply os_walk_sound in H1 as (rel1 & ch1 & -> & Hl1 & _); [|done].
  apply os_walk_sound in H2 as (rel2 & ch2 & -> & Hl2 & _); [|done].
  simpl in Heq. apply app_inv_head in Heq. subst. congruence.
Qed.

End WalkFacts.

(** * Facts about lists *)

Section ListFacts.

Lemma filter_ext_elem {A} (P1 P2 : A → Prop)
    `{!∀ x, Decision (P1 x), !∀ x, Decision (P2 x)} (l : list A) :
  (∀ x, x ∈ l → P1 x ↔ P2 x) → filter P1 l = filter P2 l.
Proof.
  induction l as [|a l IH]; intros Hiff; [done|].
  rewrite !filter_cons. rewrite IH by (intros x Hx; apply Hiff; by right).
  apply decide_ext. apply Hiff. left.
Qed.

Lemma filter_all {A} (P : A → Prop) `{!∀ x, Decision (P x)} (l : list A) :
  (∀ x, x ∈ l → P x) → filter P l = l.
Proof.
  induction l as [|a l IH]; intros Hall; [done|].
  rewrite filter_cons_True by (apply Hall; left).
  f_equal. apply IH. intros x Hx. apply Hall. by right.
Qed.

Lemma filter_none {A} (P : A → Prop) `{!∀ x, Decision (P x)} (l : list A) :
  (∀ x, x ∈ l → ¬ P x) → filter P l = [].
Proof.
  induction l as [|a l IH]; intros Hall; [done|].
  rewrite filter_cons_False by (apply Hall; left).
  apply IH. intros x Hx. apply Hall. by right.
Qed.

Lemma fmap_bind_list {A B C} (g : B → C) (f : A → list B) (l : list A) :
  g <$> (l ≫= f) = l ≫= (λ x, g <$> f x).
Proof.
  induction l as [|a l IH]; [done|].
  by rewrite !bind_cons, fmap_app, IH.
Qed.

(** In a concatenation of blocks told apart by a key, filtering on the
    key of one block gives back that block. *)
Lemma filter_bind_block {A B K} `{EqDecision K}
    (key : A → K) (tag : B → K) (f : A → list B) (l : list A) (a : A) :
  NoDup l →
  (∀ x y, x ∈ l → y ∈ l → key x = key y → x = y) →
  (∀ x b, x ∈ l → b ∈ f x → tag b = key x) →
  a ∈ l →
  filter (λ b, tag b = key a) (l ≫= f) = f a.
Proof.
  intros Hnd Hinj Htag Ha.
  induction l as [|x l IH]; [by apply elem_of_nil in Ha|].
  apply NoDup_cons in Hnd as [Hx Hnd].
  rewrite bind_cons, filter_app.
  assert (∀ y, y ∈ l → filter (λ b, tag b = key x) (f y) = []) as Hother.
  { intros y Hy. apply filter_none. intros b Hb Heq.
    rewrite (Htag y b) in Heq by (by right || done).
    apply Hinj in Heq; [|by right|left]. by subst. }
  apply elem_of_cons in Ha as [->|Ha].
  - rewrite filter_all by (intros b Hb; apply Htag; [left | done]).
    rewrite (filter_none _ (l ≫= f)); [by rewrite app_nil_r|].
    intros b Hb Heq. apply list_elem_of_bind in Hb as (y & Hb & Hy).
    rewrite (Htag y b) in Heq by (by right || done).
    apply Hinj in Heq; [|by right|left]. by subst.
  - rewrite (filter_none _ (f x)).
    + simpl. apply IH; [done| |  |done].
      * intros ????. apply Hinj; by right.
      * intros ???. apply Htag. by right.
    + intros b Hb Heq. rewrite (Htag x b) in Heq by (left || done).
      apply Hinj in Heq; [|left|by right]. by subst.
Qed.

Lemma filter_bind_no_block {A B K} `{EqDecision K}
    (tag : B → K) (f : A → list B) (l : list A) (k : K) :
  (∀ x b, x ∈ l → b ∈ f x → tag b ≠ k) →
  filter (λ b, tag b = k) (l ≫= f) = [].
Proof.
  intros Htag. apply filter_none. intros b Hb.
  apply list_elem_of_bind in Hb as (x & Hb & Hx). by eapply Htag.
Qed.

End ListFacts.

(** * Facts about the contents *)

Section ContentsFacts.
Variable omit_names : list string.
Variable w : world.
Variable directory : list string.

Local Abbreviation contents := (list_directory_contents omit_names w directory).

Lemma elem_of_walk_body it root children :
  it ∈ walk_body omit_names directory (visit omit_names root children) ↔
  ∃ name c, (name, c) ∈ children ∧ should_omit omit_names name = false
            ∧ it = item_of directory root name c.
Proof.
  unfold walk_body, visit. rewrite elem_of_app, !list_elem_of_fmap. split.
  - intros [(name & -> & Hin)|(name & -> & Hin)].
    + apply list_elem_of_filter in Hin as [Hk Hin].
      apply elem_of_file_names in Hin as [f Hin].
      by exists name, (File f).
    + apply list_elem_of_filter in Hin as [Hk Hin].
      apply list_elem_of_filter in Hin as [_ Hin].
      apply elem_of_dir_names in Hin as [ch Hin].
      by exists name, (Dir ch).
  - intros (name & [f|ch] & Hin & Hk & ->).
    + left. exists name. split; [done|].
      apply list_elem_of_filter. split; [done|].
      apply elem_of_file_names. eauto.
    + right. exists name. split; [done|].
      do 2 (apply list_elem_of_filter; split; [done|]).
      apply elem_of_dir_names. eauto.
Qed.

Lemma walk_body_root it v :
  it ∈ walk_body omit_names directory v → item_root it = v.1.1.
Proof.
  destruct v as [[root dirs] files]. unfold walk_body.
  rewrite elem_of_app, !list_elem_of_fmap.
  by intros [(name & -> & _)|(name & -> & _)].
Qed.

(** Every item of the contents is a node of the disk, reached from the
    walked directory through valid names that are all kept. *)
Lemma contents_sound it :
  well_formed (disk w) = true → it ∈ contents →
  ∃ rel name c,
    it = item_of directory (directory ++ rel) name c
    ∧ item_path it = PyStr.join (rel ++ [name])
    ∧ lookup_node (directory ++ rel ++ [name]) (disk w) = Some c
    ∧ Forall (kept omit_names) (rel ++ [name])
    ∧ valid_path (rel ++ [name]).
Proof.
  intros Hwf. unfold list_directory_contents.
  destruct (lookup_node directory (disk w)) as [n|] eqn:Hdir;
    [|intros Hin; by apply elem_of_nil in Hin].
  destruct (well_formed_lookup _ _ _ Hwf Hdir) as [Hwfn _].
  intros Hin. apply list_elem_of_bind in Hin as (v & Hit & Hv).
  apply os_walk_sound in Hv as (rel & children & -> & Hl & Hk); [|done].
  apply elem_of_walk_body in Hit as (name & c & Hin & Hkn & ->).
  destruct (well_formed_lookup _ _ _ Hwfn Hl) as [Hwfd _].
  apply well_formed_Dir in Hwfd as [Hnd Hall].
  assert (lookup_node (directory ++ rel ++ [name]) (disk w) = Some c) as Hc.
  { rewrite lookup_node_app, Hdir. simpl. apply lookup_node_snoc.
    exists children. split; [done|]. by apply assoc_NoDup. }
  exists rel, name, c. split_and!; try done.
  - simpl. rewrite <- app_assoc, relpath_under. by destruct rel.
  - apply Forall_app. split; [done|]. by repeat constructor.
  - apply well_formed_lookup in Hc as [_ Hv]; [|done].
    by apply Forall_app in Hv as [_ Hv].
Qed.

(** Every node reached through kept names has its item. *)
Lemma contents_complete rel name c :
  lookup_node (directory ++ rel ++ [name]) (disk w) = Some c →
  Forall (kept omit_names) (rel ++ [name]) →
  item_of directory (directory ++ rel) name c ∈ contents.
Proof.
  intros Hc Hk. rewrite app_assoc in Hc.
  apply lookup_node_snoc in Hc as (children & Hl & Ha).
  rewrite lookup_node_app in Hl. unfold list_directory_contents.
  destruct (lookup_node directory (disk w)) as [n|]; [|done]. simpl in Hl.
  apply Forall_app in Hk as [Hk Hkn]. apply Forall_cons in Hkn as [Hkn _].
  apply list_elem_of_bind. exists (visit omit_names (directory ++ rel) children).
  split; [|by apply os_walk_complete].
  apply elem_of_walk_body. exists name, c. split_and!; try done.
  by apply assoc_elem_of.
Qed.

Lemma item_of_path rel name c :
  item_path (item_of directory (directory ++ rel) name c) = PyStr.join (rel ++ [name]).
Proof. simpl. rewrite <- app_assoc, relpath_under. by destruct rel. Qed.

Lemma kept_names_NoDup children :
  NoDup children.*1 →
  NoDup (filter (kept omit_names) (file_names children)
         ++ filter (kept omit_names)
              (filter (kept omit_names) (dir_names children))).
Proof.
  intros Hnd. apply NoDup_app. split_and!.
  - apply NoDup_filter. by apply NoDup_fst_filter.
  - intros name Hf Hd.
    apply list_elem_of_filter in Hf as [_ Hf].
    do 2 apply list_elem_of_filter in Hd as [_ Hd].
    apply elem_of_file_names in Hf as [f Hf].
    apply elem_of_dir_names in Hd as [ch Hd].
    apply (assoc_NoDup _ _ _ Hnd) in Hf. apply (assoc_NoDup _ _ _ Hnd) in Hd.
    congruence.
  - do 2 apply NoDup_filter. by apply NoDup_fst_filter.
Qed.

Lemma walk_body_paths rel children :
  item_path <$> walk_body omit_names directory
                  (visit omit_names (directory ++ rel) children)
  = (λ name, PyStr.join (rel ++ [name]))
      <$> (filter (kept omit_names) (file_names children)
           ++ filter (kept omit_names)
                (filter (kept omit_names) (dir_names children))).
Proof.
  unfold walk_body, visit. rewrite !fmap_app, <- !list_fmap_compose.
  f_equal; apply list_fmap_ext; intros i name _; simpl;
    rewrite <- app_assoc, relpath_under; by destruct rel.
Qed.

(** No two items of a walk have the same path. *)
Lemma contents_paths_NoDup :
  well_formed (disk w) = true → NoDup (item_path <$> contents).
Proof.
  intros Hwf. unfold list_directory_contents.
  destruct (lookup_node directory (disk w)) as [n|] eqn:Hdir; [|constructor].
  destruct (well_formed_lookup _ _ _ Hwf Hdir) as [Hwfn _].
  assert (∀ v p, v ∈ os_walk omit_names directory n →
            p ∈ item_path <$> walk_body omit_names directory v →
            ∃ rel children name,
              v = visit omit_names (directory ++ rel) children
              ∧ lookup_node rel n = Some (Dir children)
              ∧ p = PyStr.join (rel ++ [name])
              ∧ valid_path (rel ++ [name])) as Hshape.
  { intros v p Hv Hp.
    apply os_walk_sound in Hv as (rel & children & -> & Hl & _); [|done].
    apply list_elem_of_fmap in Hp as (it & -> & Hit).
    apply elem_of_walk_body in Hit as (name & c & Hin & _ & ->).
    destruct (well_formed_lookup _ _ _ Hwfn Hl) as [Hwfd Hvrel].
    apply well_formed_Dir in Hwfd as [_ Hall]. destruct (Hall _ _ Hin) as [Hvn _].
    exists rel, children, name. split_and!; try done.
    - apply item_of_path.
    - apply Forall_app. split; [done|]. by repeat constructor. }
  rewrite fmap_bind_list. apply NoDup_bind.
  - intros v1 v2 p Hv1 Hv2 Hp1 Hp2.
    destruct (Hshape _ _ Hv1 Hp1) as (rel1 & ch1 & name1 & -> & Hl1 & -> & Hval1).
    destruct (Hshape _ _ Hv2 Hp2) as (rel2 & ch2 & name2 & -> & Hl2 & Heq & Hval2).
    apply join_inj in Heq; try done; try (by destruct rel1); try (by destruct rel2).
    apply app_inj_tail in Heq as [-> _]. congruence.
  - intros v Hv.
    apply os_walk_sound in Hv as (rel & children & -> & Hl & _); [|done].
    destruct (well_formed_lookup _ _ _ Hwfn Hl) as [Hwfd Hvrel].
    apply well_formed_Dir in Hwfd as [Hnd Hall].
    rewrite walk_body_paths. apply NoDup_fmap_2_strong; [|by apply kept_names_NoDup].
    assert (∀ x, x ∈ filter (kept omit_names) (file_names children)
                      ++ filter (kept omit_names)
                           (filter (kept omit_names) (dir_names children)) →
                 valid_path (rel ++ [x])) as Hval.
    { intros x Hx. apply Forall_app. split; [done|].
      apply elem_of_app in Hx as [Hx|Hx].
      - apply list_elem_of_filter in Hx as [_ Hx].
        apply elem_of_file_names in Hx as [f Hx].
        destruct (Hall _ _ Hx). by repeat constructor.
      - do 2 apply list_elem_of_filter in Hx as [_ Hx].
        apply elem_of_dir_names in Hx as [ch Hx].
        destruct (Hall _ _ Hx). by repeat constructor. }
    intros x y Hx Hy Heq.
    apply join_inj in Heq; auto; try (by destruct rel).
    by apply app_inj_tail in Heq as [_ ->].
  - by apply os_walk_NoDup.
Qed.

(** The items found in one directory are its kept files, then its kept
    sub-directories, as one block of the contents. *)
Lemma contents_of_root rel children :
  well_formed (disk w) = true →
  lookup_node (directory ++ rel) (disk w) = Some (Dir children) →
  Forall (kept omit_names) rel →
  filter (λ it, item_root it = directory ++ rel) contents
  = walk_body omit_names directory (visit omit_names (directory ++ rel) children).
Proof.
  intros Hwf Hl Hk. unfold list_directory_contents.
  rewrite lookup_node_app in Hl.
  destruct (lookup_node directory (disk w)) as [n|] eqn:Hdir; [|done].
  simpl in Hl. destruct (well_formed_lookup _ _ _ Hwf Hdir) as [Hwfn _].
  apply (filter_bind_block (λ v : list string * list string * list string, v.1.1)
           item_root (walk_body omit_names directory)
           (os_walk omit_names directory n)
           (visit omit_names (directory ++ rel) children)).
  - by apply os_walk_NoDup.
  - intros v1 v2 H1 H2. by apply os_walk_root_inj with omit_names n directory.
  - intros v it _ Hit. by apply walk_body_root.
  - by apply os_walk_complete.
Qed.

Lemma contents_of_no_root R :
  well_formed (disk w) = true →
  (∀ children, lookup_node R (disk w) ≠ Some (Dir children)) →
  filter (λ it, item_root it = R) contents = [].
Proof.
  intros Hwf Hno. unfold list_directory_contents.
  destruct (lookup_node directory (disk w)) as [n|] eqn:Hdir; [|done].
  destruct (well_formed_lookup _ _ _ Hwf Hdir) as [Hwfn _].
  apply filter_bind_no_block. intros v it Hv Hit Heq.
  apply walk_body_root in Hit.
  apply os_walk_sound in Hv as (rel & children & -> & Hl & _); [|done].
  simpl in Hit. apply (Hno children).
  rewrite <- Heq, Hit, lookup_node_app, Hdir. done.
Qed.

End ContentsFacts.

(** * Facts about the two loops *)

Section LoopFacts.
Variable w : world.
Variable directory : list string.

Lemma bind_Ok {A B} (r : result A) (k : A → result B) b :
  r ≫= k = Ok b ↔ ∃ a, r = Ok a ∧ k a = Ok b.
Proof.
  destruct r as [a|e]; simpl; split.
  - intros H. by exists a.
  - by intros (a' & [= ->] & H).
  - done.
  - by intros (a' & [=] & _).
Qed.

Lemma bind_Raise {A B} (r : result A) (k : A → result B) x :
  r ≫= k = Raise x ↔ r = Raise x ∨ ∃ a, r = Ok a ∧ k a = Raise x.
Proof.
  destruct r as [a|e]; simpl; split.
  - intros H. right. by exists a.
  - intros [[=]|(a' & [= ->] & H)]. done.
  - intros [= ->]. by left.
  - intros [[= ->]|(a' & [=] & _)]. done.
Qed.

(** What pass one fixes of an entity; the second loop never changes it. *)
Lemma make_entity_Ok it e :
  make_entity w directory it = Ok e →
  ent_id e = item_path it ∧ ent_type e = item_type it
  ∧ name e = PyStr.basename (item_path it)
  ∧ dateCreated e = None ∧ hasPart e = None ∧ isDescribedBy e = None
  ∧ (if looks_for_resource it
     then (∃ d, md5 w (directory ++ PyStr.components (item_path it)) = Ok d
                ∧ contentChecksum e = Some [("MD5", d)])
          ∧ (is_Some (description e)
             ↔ os_path_exists w (resource_file_of (item_path it)) = true)
          ∧ (∀ d, description e = Some d →
               get_description_from_resource_file w
                 (resource_file_of (item_path it)) = Ok d)
     else contentChecksum e = None ∧ description e = None).
Proof.
  unfold make_entity. destruct (looks_for_resource it).
  - intros H. apply bind_Ok in H as (e1 & H1 & H).
    apply bind_Ok in H as (d & Hd & [= <-]).
    destruct (os_path_exists w _) eqn:Hex.
    + apply bind_Ok in H1 as (v & Hv & [= <-]). simpl.
      split_and!; try done; try (by eauto).
      by intros ? [= <-].
    + inversion H1; subst. simpl.
      split_and!; try done; by eauto.
  - intros [= <-]. simpl. by split_and!.
Qed.

(** Neither of the exceptions of the later steps comes out of the first
    loop. *)
Lemma get_description_Raise r x :
  get_description_from_resource_file w r = Raise x →
  x ≠ KeyError ∧ x ≠ TypeError.
Proof.
  unfold get_description_from_resource_file.
  destruct (os_path_exists w r); [|done].
  destruct (lookup_node _ _) as [[f|ch]|]; try (by intros [= <-]).
  destruct (readable f); [|by intros [= <-]].
  destruct (text f) as [| | |doc]; try (by intros [= <-]).
  destruct doc; simpl; try done; by intros [= <-].
Qed.

Lemma make_entity_Raise it x :
  make_entity w directory it = Raise x →
  x ≠ KeyError ∧ x ≠ TypeError.
Proof.
  unfold make_entity. destruct (looks_for_resource it); [|done].
  intros H. apply bind_Raise in H as [H|(e1 & _ & H)].
  - destruct (os_path_exists w _); [|done].
    apply bind_Raise in H as [H|(v & _ & H)]; [|done].
    by apply get_description_Raise in H.
  - apply bind_Raise in H as [H|(d & _ & H)]; [|done].
    unfold md5 in H. destruct (lookup_node _ _) as [[f|ch]|];
      try (by inversion H).
    destruct (readable f); [done | by inversion H].
Qed.

Lemma last_index_None p l :
  last_index p l = None ↔ p ∉ item_path <$> l.
Proof.
  induction l as [|a l IH]; simpl.
  - split; [intros _ H; by apply elem_of_nil in H | done].
  - rewrite not_elem_of_cons. destruct (last_index p l) as [j|].
    + split; [done|]. intros [_ H]. by apply IH in H.
    + destruct (decide (item_path a = p)) as [<-|Hne].
      * split; [done | by intros [? _]].
      * split; [|done]. intros _. split; [done | by apply IH].
Qed.

Lemma last_index_lookup p (l : list item) (j : nat) :
  last_index p l = Some j → ∃ it, l !! j = Some it ∧ item_path it = p.
Proof.
  revert j. induction l as [|a l IH]; intros j; simpl; [done|].
  destruct (last_index p l) as [j'|].
  - intros [= <-]. by apply IH.
  - destruct (decide (item_path a = p)); [|done].
    intros [= <-]. by exists a.
Qed.


Lemma last_index_NoDup (l : list item) (i : nat) it :
  NoDup (item_path <$> l) → l !! i = Some it →
  last_index (item_path it) l = Some i.
Proof.
  revert i. induction l as [|a l IH]; intros i Hnd Hi; [done|].
  rewrite fmap_cons in Hnd. apply NoDup_cons in Hnd as [Ha Hnd]. simpl.
  destruct i as [|i]; simpl in Hi.
  - inversion Hi; subst. apply last_index_None in Ha. rewrite Ha.
    by rewrite decide_True.
  - by rewrite (IH i Hnd Hi).
Qed.

Lemma last_index_is_Some p l :
  is_Some (last_index p l) ↔ p ∈ item_path <$> l.
Proof.
  destruct (last_index p l) eqn:E.
  - split; [|by eauto]. intros _.
    destruct (decide (p ∈ item_path <$> l)) as [|Hn]; [done|].
    apply last_index_None in Hn. congruence.
  - apply last_index_None in E. split; [by intros [? [=]] | done].
Qed.

(** The first loop appends one entity per item, in order, and records
    for each path the position of the entity of its last item. *)
Lemma first_loop_Ok contents : ∀ g m g' m',
  first_loop w directory contents g m = Ok (g', m') →
  (∃ es, g' = g ++ es
         ∧ Forall2 (λ it e, make_entity w directory it = Ok e) contents es)
  ∧ ∀ p, m' !! p = match last_index p contents with
                   | Some j => Some (length g + j)
                   | None => m !! p
                   end.
Proof.
  induction contents as [|it rest IH]; intros g m g' m'; simpl.
  - intros [= <- <-]. split; [|done]. exists []. by rewrite app_nil_r.
  - intros H. apply bind_Ok in H as (e & He & H).
    apply IH in H as [(es & -> & Hes) Hm]. split.
    + exists (e :: es). split; [by rewrite <- app_assoc | by constructor].
    + intros p. rewrite Hm, length_app. simpl.
      destruct (last_index p rest) as [j|]; [f_equal; lia|].
      rewrite lookup_insert. destruct (decide (item_path it = p)); [|done].
      f_equal. lia.
Qed.

Lemma first_loop_Raise contents : ∀ g m x,
  first_loop w directory contents g m = Raise x →
  ∃ it, it ∈ contents ∧ make_entity w directory it = Raise x.
Proof.
  induction contents as [|it rest IH]; intros g m x; simpl; [done|].
  intros H. apply bind_Raise in H as [H|(e & _ & H)].
  - exists it. split; [left | done].
  - apply IH in H as (it' & Hin & H). exists it'. split; [by right | done].
Qed.


Lemma link_item_Ok m (g : list entity) it :
  is_Some (m !! item_path it) →
  ∃ g', link_item directory m g it = Ok g'
        ∧ ∀ j : nat, g' !! j = (λ e, link_entity directory m j e it) <$> g !! j.
Proof.
  intros [k Hk]. unfold link_item, link_entity.
  set (g1 := match m !! parent_path_of directory it with
             | Some parent => alter (append_hasPart (item_path it)) parent g
             | None => g
             end).
  assert (∀ j : nat, g1 !! j =
            (λ e, if decide (m !! parent_path_of directory it = Some j)
                  then append_hasPart (item_path it) e else e) <$> g !! j) as Hg1.
  { intros j. subst g1. destruct (m !! parent_path_of directory it) as [q|].
    - rewrite list_lookup_alter. destruct (decide (q = j)) as [->|Hne].
      + destruct (g !! j) as [e|]; [|done]. apply (f_equal Some).
        case_decide; congruence.
      + destruct (g !! j) as [e|]; [|done]. apply (f_equal Some).
        case_decide; congruence.
    - destruct (g !! j) as [e|]; [|done]. apply (f_equal Some).
      case_decide; congruence. }
  rewrite Hk. destruct (looks_for_resource it); simpl.
  - destruct (bool_decide (is_Some (m !! resource_file_of (item_path it)))); simpl.
    + eexists. split; [done|]. intros j.
      rewrite list_lookup_alter. destruct (decide (k = j)) as [->|Hne].
      * rewrite Hg1. destruct (g !! j) as [e|]; [|done]. apply (f_equal Some).
        by rewrite bool_decide_eq_true_2.
      * rewrite Hg1. destruct (g !! j) as [e|]; [|done]. apply (f_equal Some).
        by rewrite bool_decide_eq_false_2 by congruence.
    + eexists. split; [done|]. apply Hg1.
  - eexists. split; [done|]. apply Hg1.
Qed.

Lemma second_loop_Ok m l : ∀ g : list entity,
  (∀ it, it ∈ l → is_Some (m !! item_path it)) →
  ∃ g', second_loop directory m l g = Ok g'
        ∧ ∀ j : nat, g' !! j
                     = (λ e, foldl (link_entity directory m j) e l) <$> g !! j.
Proof.
  induction l as [|it rest IH]; intros g Hall; simpl.
  - exists g. split; [done|]. intros j. by destruct (g !! j).
  - destruct (link_item_Ok m g it (Hall it ltac:(left))) as (g1 & -> & Hg1).
    simpl. destruct (IH g1 ltac:(intros; apply Hall; by right)) as (g' & -> & Hg').
    exists g'. split; [done|]. intros j. rewrite Hg', Hg1.
    by destruct (g !! j).
Qed.

(** The second loop leaves alone what the first loop wrote. *)
Lemma link_fold_fixed m j l : ∀ e,
  let e' := foldl (link_entity directory m j) e l in
  ent_id e' = ent_id e ∧ ent_type e' = ent_type e ∧ name e' = name e
  ∧ dateCreated e' = dateCreated e ∧ description e' = description e
  ∧ contentChecksum e' = contentChecksum e.
Proof.
  induction l as [|it rest IH]; intros e; simpl; [done|].
  destruct (IH (link_entity directory m j e it)) as (-> & -> & -> & -> & -> & ->).
  unfold link_entity.
  destruct (decide _); destruct (_ && _); simpl; done.
Qed.

Lemma add_parts_cons h p ks :
  add_parts h (p :: ks) = add_parts (Some (default [] h ++ [p])) ks.
Proof. destruct ks; simpl; [done|]. by rewrite <- app_assoc. Qed.

(** The parts an entity receives: the paths of the items whose parent
    path is recorded for it, in the order of the contents. *)
Lemma link_fold_hasPart m j l : ∀ e,
  hasPart (foldl (link_entity directory m j) e l)
  = add_parts (hasPart e)
      (item_path <$> filter (λ it, m !! parent_path_of directory it = Some j) l).
Proof.
  induction l as [|it rest IH]; intros e; simpl; [done|].
  rewrite IH, filter_cons. unfold link_entity.
  destruct (decide (m !! parent_path_of directory it = Some j)).
  - rewrite fmap_cons, add_parts_cons. by destruct (_ && _).
  - by destruct (_ && _).
Qed.

Lemma link_fold_not_described m j l : ∀ e,
  (∀ it, it ∈ l → ¬ described_at m j it) →
  isDescribedBy (foldl (link_entity directory m j) e l) = isDescribedBy e.
Proof.
  induction l as [|it rest IH]; intros e Hall; simpl; [done|].
  rewrite IH by (intros; apply Hall; by right). unfold link_entity.
  destruct (_ && _) eqn:E; [|by destruct (decide _)].
  exfalso. apply (Hall it); [left|].
  apply andb_true_iff in E as [E E3]. apply andb_true_iff in E as [E1 E2].
  apply bool_decide_eq_true in E2, E3. done.
Qed.

Lemma link_fold_described m j l : ∀ e it,
  it ∈ l → described_at m j it →
  ∃ it', it' ∈ l ∧ described_at m j it'
         ∧ isDescribedBy (foldl (link_entity directory m j) e l)
           = Some (resource_file_of (item_path it')).
Proof.
  induction l as [|a rest IH]; intros e it Hin Hd; [by apply elem_of_nil in Hin|].
  simpl.
  destruct (decide (Exists (described_at m j) rest)) as [Hex|Hno];
    rewrite Exists_exists in *.
  - destruct Hex as (it' & Hin' & Hd'). destruct (IH (link_entity directory m j e a) it' Hin' Hd') as (it2 & ? & ? & ?).
    exists it2. split_and!; try done. by right.
  - apply elem_of_cons in Hin as [->|Hin]; [|exfalso; apply Hno; eauto].
    exists a. split_and!; [left | done |].
    rewrite link_fold_not_described by (intros it' ? ?; apply Hno; eauto).
    unfold link_entity. destruct Hd as (-> & H2 & H3). simpl.
    rewrite !bool_decide_eq_true_2 by done. by destruct (decide _).
Qed.

End LoopFacts.

(** * Facts about the graph *)

Section GraphFacts.
Variable w : world.
Variable directory : list string.

Lemma build_graph_Ok contents g :
  build_graph w directory contents = Ok g →
  ∃ es m,
    Forall2 (λ it e, make_entity w directory it = Ok e) contents es
    ∧ (∀ p, m !! p = S <$> last_index p contents)
    ∧ ∀ j : nat,
        g !! j = (λ e, foldl (link_entity directory m j) e contents)
                   <$> (root_entity w directory :: es) !! j.
Proof.
  unfold build_graph. intros H. apply bind_Ok in H as ([g1 m] & H1 & H2).
  apply first_loop_Ok in H1 as [(es & -> & Hes) Hm].
  assert (∀ p, m !! p = S <$> last_index p contents) as Hm'.
  { intros p. rewrite Hm. by destruct (last_index p contents). }
  destruct (second_loop_Ok directory m contents ([root_entity w directory] ++ es))
    as (g' & Hg' & Hlook).
  { intros it Hin. rewrite Hm'. apply fmap_is_Some, last_index_is_Some.
    by apply list_elem_of_fmap_2. }
  rewrite Hg' in H2. inversion H2; subst. by exists es, m.
Qed.

Lemma build_graph_Raise contents x :
  build_graph w directory contents = Raise x →
  ∃ it, it ∈ contents ∧ make_entity w directory it = Raise x.
Proof.
  unfold build_graph. intros H.
  apply bind_Raise in H as [H|([g1 m] & H1 & H2)].
  - by apply first_loop_Raise in H.
  - exfalso. apply first_loop_Ok in H1 as [_ Hm].
    destruct (second_loop_Ok directory m contents g1) as (g' & Hg' & _);
      [|congruence].
    intros it Hin. rewrite Hm.
    assert (is_Some (last_index (item_path it) contents)) as [j ->]; [|done].
    apply last_index_is_Some. by apply list_elem_of_fmap_2.
Qed.

(** The build fails only where an item on its own fails. *)
Lemma build_graph_succeeds contents :
  (∀ it, it ∈ contents → ∃ e, make_entity w directory it = Ok e) →
  ∃ g, build_graph w directory contents = Ok g.
Proof.
  intros Hall. destruct (build_graph w directory contents) as [g|x] eqn:E; [eauto|].
  apply build_graph_Raise in E as (it & Hin & E).
  destruct (Hall it Hin) as [e He]. congruence.
Qed.

(** The finished graph, entity by entity: the root first, untouched by
    the second loop, then one entity per item. *)
Lemma graph_entities contents g :
  build_graph w directory contents = Ok g →
  ∃ m,
    (∀ p, m !! p = S <$> last_index p contents)
    ∧ length g = S (length contents)
    ∧ (∃ r, g !! 0 = Some r ∧ ent_id r = "./" ∧ ent_type r = Dataset
            ∧ hasPart r = Some [] ∧ contentChecksum r = None
            ∧ description r = None ∧ isDescribedBy r = None)
    ∧ ∀ (i : nat) e, g !! S i = Some e →
        ∃ it e0, contents !! i = Some it
                 ∧ make_entity w directory it = Ok e0
                 ∧ e = foldl (link_entity directory m (S i)) e0 contents.
Proof.
  intros H. apply build_graph_Ok in H as (es & m & Hes & Hm & Hg).
  exists m. split_and!; [done| | |].
  - apply Forall2_length in Hes.
    assert (length g = length (root_entity w directory :: es)) as ->;
      [|simpl; lia].
    destruct (decide (length g = length (root_entity w directory :: es)))
      as [|Hne]; [done|]. exfalso.
    destruct (decide (length g < length (root_entity w directory :: es))%nat).
    + pose proof (Hg (length g)) as Hj.
      rewrite (lookup_ge_None_2 g) in Hj by lia.
      destruct (lookup_lt_is_Some_2 (root_entity w directory :: es) (length g))
        as [e He]; [done|]. by rewrite He in Hj.
    + pose proof (Hg (length (root_entity w directory :: es))) as Hj.
      rewrite (lookup_ge_None_2 (_ :: _)) in Hj by lia.
      destruct (lookup_lt_is_Some_2 g (length (root_entity w directory :: es)))
        as [e He]; [lia|]. by rewrite He in Hj.
  - eexists. split; [by rewrite Hg|]. simpl.
    destruct (link_fold_fixed directory m 0 contents (root_entity w directory))
      as (-> & -> & _ & _ & -> & ->).
    rewrite link_fold_hasPart, link_fold_not_described.
    + rewrite filter_none; [done|]. intros it _. rewrite Hm.
      by destruct (last_index _ contents).
    + intros it _ (_ & _ & H3). rewrite Hm in H3.
      by destruct (last_index _ contents).
  - intros i e Hi. rewrite Hg in Hi. simpl in Hi.
    destruct (es !! i) as [e0|] eqn:E; [|done]. inversion Hi; subst.
    destruct (Forall2_lookup_r _ _ _ _ _ Hes E) as (it & Hit & He0).
    by exists it, e0.
Qed.

Lemma graph_entity_of_item contents g (i : nat) it :
  build_graph w directory contents = Ok g → contents !! i = Some it →
  ∃ e, g !! S i = Some e.
Proof.
  intros H Hi. apply graph_entities in H as (m & _ & Hlen & _).
  apply lookup_lt_is_Some_2. apply lookup_lt_Some in Hi. lia.
Qed.

(** Every entity of the graph is the root or the entity of an item. *)
Lemma graph_elem contents g e :
  build_graph w directory contents = Ok g → e ∈ g →
  ∃ m, (∀ p, m !! p = S <$> last_index p contents)
    ∧ ((g !! 0 = Some e ∧ ent_id e = "./" ∧ ent_type e = Dataset
        ∧ hasPart e = Some [] ∧ contentChecksum e = None
        ∧ description e = None ∧ isDescribedBy e = None)
       ∨ ∃ (i : nat) it e0,
           g !! S i = Some e ∧ contents !! i = Some it
           ∧ make_entity w directory it = Ok e0
           ∧ e = foldl (link_entity directory m (S i)) e0 contents).
Proof.
  intros H Hin. apply graph_entities in H as (m & Hm & _ & Hroot & Hrest).
  exists m. split; [done|].
  apply list_elem_of_lookup in Hin as [[|i] Hi].
  - left. destruct Hroot as (r & Hr & ?). by simplify_eq.
  - right. destruct (Hrest i e Hi) as (it & e0 & ? & ? & ?). by exists i, it, e0.
Qed.

End GraphFacts.

(** * Facts about the manifest of a walk *)

Section ManifestFacts.
Variable w : world.
Variable directory : list string.
Variable omit_names : list string.

Local Abbreviation contents := (list_directory_contents omit_names w directory).

(** The entity of an item keeps the item's path and type. *)
Lemma item_entity_fields (m : gmap string nat) (i : nat) it e0 (l : list item) :
  make_entity w directory it = Ok e0 →
  let e := foldl (link_entity directory m i) e0 l in
  ent_id e = item_path it ∧ ent_type e = item_type it
  ∧ description e = description e0 ∧ contentChecksum e = contentChecksum e0.
Proof.
  intros He0 e. subst e.
  destruct (link_fold_fixed directory m i l e0) as (-> & -> & _ & _ & -> & ->).
  apply make_entity_Ok in He0 as (-> & -> & _). done.
Qed.

(** The parent path the second loop computes for an item of the walk. *)
Lemma parent_path_of_item it rel :
  valid_path rel → item_root it = directory ++ rel →
  parent_path_of directory it = match rel with [] => "./" | _ => PyStr.join rel end.
Proof.
  intros Hv Hroot. unfold parent_path_of. rewrite Hroot, relpath_under.
  destruct rel as [|c rel]; [done|].
  destruct (String.eqb_spec (PyStr.join (c :: rel)) "."); [|done].
  by apply join_not_dot in e.
Qed.

(** In the manifest of a walk, the items hung under the entity of the
    node at [rel] are those found in the directory [rel]. *)
Lemma children_filter (m : gmap string nat) (i : nat) it rel :
  well_formed (disk w) = true →
  (∀ p, m !! p = S <$> last_index p contents) →
  contents !! i = Some it → item_path it = PyStr.join rel →
  valid_path rel → rel ≠ [] →
  filter (λ it', m !! parent_path_of directory it' = Some (S i)) contents
  = filter (λ it', item_root it' = directory ++ rel) contents.
Proof.
  intros Hwf Hm Hi Hp Hv Hne. apply filter_ext_elem. intros it' Hin'.
  destruct (contents_sound _ _ _ _ Hwf Hin') as (rel' & name' & c' & -> & _ & _ & _ & Hv').
  apply Forall_app in Hv' as [Hv' _].
  rewrite (parent_path_of_item (item_of directory (directory ++ rel') name' c')
             rel' Hv' eq_refl), Hm. simpl.
  pose proof (contents_paths_NoDup omit_names w directory Hwf) as Hnd.
  split.
  - intros H. destruct (last_index _ contents) as [j|] eqn:E; [|done].
    inversion H; subst j. apply last_index_lookup in E as (it2 & Hi2 & Hp2).
    rewrite Hi in Hi2. inversion Hi2; subst it2. rewrite Hp in Hp2.
    destruct rel' as [|c r]; [by apply join_not_root_id in Hp2|].
    apply join_inj in Hp2; try done. by rewrite Hp2.
  - intros Heq. apply app_inv_head in Heq. subst rel'.
    destruct rel as [|c r]; [done|]. rewrite <- Hp.
    by rewrite (last_index_NoDup _ _ _ Hnd Hi).
Qed.

(** Items and entities of a manifest correspond. *)
Lemma manifest_entity_of_item g it :
  manifest w directory omit_names = Ok g → it ∈ contents →
  ∃ e, e ∈ g ∧ ent_id e = item_path it ∧ ent_type e = item_type it.
Proof.
  intros H Hin. apply list_elem_of_lookup in Hin as [i Hi].
  destruct (graph_entity_of_item _ _ _ _ _ _ H Hi) as [e He].
  pose proof H as H'.
  apply graph_entities in H as (m & _ & _ & _ & Hrest).
  destruct (Hrest i e He) as (it' & e0 & Hi' & He0 & ->).
  rewrite Hi in Hi'. inversion Hi'; subst it'.
  destruct (item_entity_fields m (S i) it e0 contents He0) as (? & ? & _).
  eexists. split; [by eapply list_elem_of_lookup_2|]. done.
Qed.

Lemma manifest_item_of_entity g e :
  manifest w directory omit_names = Ok g → e ∈ g →
  ent_id e = "./" ∨ ∃ it, it ∈ contents ∧ ent_id e = item_path it.
Proof.
  intros H Hin. destruct (graph_elem _ _ _ _ _ H Hin) as (m & _ & [Hroot|Hit]).
  - left. by destruct Hroot as (_ & ? & _).
  - right. destruct Hit as (i & it & e0 & _ & Hi & He0 & ->).
    destruct (item_entity_fields m (S i) it e0 contents He0) as (? & _).
    exists it. split; [by eapply list_elem_of_lookup_2 | done].
Qed.

(** A part of an entity is the path of an item whose parent path the
    mapping records for that entity. *)
Lemma hasPart_elem g e parts p :
  manifest w directory omit_names = Ok g → e ∈ g →
  hasPart e = Some parts → p ∈ parts →
  ∃ it, it ∈ contents ∧ item_path it = p
        ∧ is_Some (last_index (parent_path_of directory it) contents).
Proof.
  intros H Hin Hparts Hp.
  destruct (graph_elem _ _ _ _ _ H Hin) as (m & Hm & [Hroot|Hit]).
  - destruct Hroot as (_ & _ & _ & Hh & _). rewrite Hh in Hparts.
    inversion Hparts; subst. by apply elem_of_nil in Hp.
  - destruct Hit as (i & it & e0 & _ & Hi & He0 & ->).
    rewrite link_fold_hasPart in Hparts.
    apply make_entity_Ok in He0 as (_ & _ & _ & _ & Hh & _). rewrite Hh in Hparts.
    destruct (item_path <$> filter _ contents) as [|q qs] eqn:E; [done|].
    simpl in Hparts. inversion Hparts; subst parts. rewrite <- E in Hp.
    apply list_elem_of_fmap in Hp as (it' & -> & Hin').
    apply list_elem_of_filter in Hin' as [Hpar Hin'].
    exists it'. split_and!; try done. rewrite Hm in Hpar.
    by destruct (last_index _ contents).
Qed.

Lemma contents_path_not_root_id it :
  well_formed (disk w) = true → it ∈ contents → item_path it ≠ "./".
Proof.
  intros Hwf Hin Heq.
  destruct (contents_sound _ _ _ _ Hwf Hin) as (rel & nm & c & _ & Hp & _ & _ & Hv).
  rewrite Hp in Heq. apply join_not_root_id in Heq; [done..|by destruct rel].
Qed.

Lemma contents_path_inj it1 it2 :
  well_formed (disk w) = true → it1 ∈ contents → it2 ∈ contents →
  item_path it1 = item_path it2 → it1 = it2.
Proof.
  intros Hwf H1 H2 Heq.
  pose proof (contents_paths_NoDup omit_names w directory Hwf) as Hnd.
  apply list_elem_of_lookup in H1 as [i1 H1].
  apply list_elem_of_lookup in H2 as [i2 H2].
  pose proof (last_index_NoDup _ _ _ Hnd H1) as E1.
  pose proof (last_index_NoDup _ _ _ Hnd H2) as E2.
  rewrite Heq in E1. rewrite E1 in E2. inversion E2; subst. congruence.
Qed.

End ManifestFacts.

(** * The claims *)

(** C1 (the code departs from the claim).  The claim wants every entry
    found directly in the walked directory to be listed in the root
    Dataset's [hasPart].  The root entity is never recorded in
    [path_to_entity], so the lookup of ["./"] finds nothing: in every
    built manifest the root's [hasPart] stays empty, and an entry found
    directly in the walked directory is a part of no entity at all. *)
Theorem C1_top_level_entries_have_no_parent w directory omit_names g it :
  well_formed (disk w) = true →
  manifest w directory omit_names = Ok g →
  it ∈ list_directory_contents omit_names w directory →
  item_root it = directory →
  (∃ root, g !! 0 = Some root ∧ ent_type root = Dataset ∧ hasPart root = Some [])
  ∧ ∀ e parts, e ∈ g → hasPart e = Some parts → item_path it ∉ parts.
Proof.
  intros Hwf Hman Hin Hroot. split.
  - pose proof Hman as H. apply graph_entities in H as (m & _ & _ & Hr & _).
    destruct Hr as (r & ? & ? & ? & ? & _). by exists r.
  - intros e parts He Hparts Hp.
    destruct (hasPart_elem _ _ _ _ _ _ _ Hman He Hparts Hp)
      as (it' & Hin' & Hpath & [j Hj]).
    apply (contents_path_inj _ _ _ _ _ Hwf Hin' Hin) in Hpath. subst it'.
    rewrite (parent_path_of_item directory it []) in Hj;
      [|constructor|by rewrite app_nil_r].
    apply last_index_lookup in Hj as (it2 & Hi2 & Hp2).
    apply list_elem_of_lookup_2 in Hi2.
    by apply (contents_path_not_root_id _ _ _ _ Hwf Hi2).
Qed.

Lemma C1_witness :
  (∃ root, [root_entity Example.single Example.out_dir;
            Entity "a.csv" FileT "a.csv" None None (Some [("MD5", "m_a")]) None None]
             !! 0 = Some root
           ∧ ent_type root = Dataset ∧ hasPart root = Some [])
  ∧ ∀ e parts,
      e ∈ [root_entity Example.single Example.out_dir;
           Entity "a.csv" FileT "a.csv" None None (Some [("MD5", "m_a")]) None None] →
      hasPart e = Some parts → item_path Example.a_csv ∉ parts.
Proof.
  apply (C1_top_level_entries_have_no_parent Example.single Example.out_dir []).
  - vm_compute. reflexivity.
  - vm_compute. reflexivity.
  - apply list_elem_of_In. vm_compute. left. reflexivity.
  - reflexivity.
Defined.

(** Where an entity of the graph comes from, with the fields the first
    loop gave it. *)
Lemma entity_origin w directory contents g e :
  build_graph w directory contents = Ok g → e ∈ g →
  (ent_id e = "./" ∧ ent_type e = Dataset ∧ contentChecksum e = None
   ∧ description e = None)
  ∨ ∃ it e0, it ∈ contents ∧ make_entity w directory it = Ok e0
             ∧ ent_id e = item_path it ∧ ent_type e = item_type it
             ∧ description e = description e0
             ∧ contentChecksum e = contentChecksum e0.
Proof.
  intros H Hin. destruct (graph_elem _ _ _ _ _ H Hin) as (m & _ & [Hroot|Hit]).
  - left. destruct Hroot as (_ & ? & ? & _ & ? & ? & _). done.
  - right. destruct Hit as (i & it & e0 & _ & Hi & He0 & ->).
    destruct (item_entity_fields w directory m (S i) it e0 contents He0)
      as (? & ? & ? & ?).
    exists it, e0. split_and!; try done. by eapply list_elem_of_lookup_2.
Qed.

Lemma looks_for_resource_spec it :
  looks_for_resource it = true
  ↔ item_type it = FileT ∧ PyStr.endswith (item_path it) resource_suffix = false.
Proof.
  unfold looks_for_resource.
  rewrite andb_true_iff, bool_decide_eq_true, negb_true_iff. done.
Qed.

(** C2 (amended).  A checksum, always with algorithm MD5 and the digest of
    the file itself, is present on an entity iff the entry is a File whose
    path does not end in [.resource.yaml]; the resource files themselves,
    the directories and the root carry none. *)
Theorem C2_checksum_iff_data_file w directory omit_names g e :
  manifest w directory omit_names = Ok g → e ∈ g →
  (is_Some (contentChecksum e)
   ↔ ent_type e = FileT ∧ PyStr.endswith (ent_id e) resource_suffix = false)
  ∧ ∀ c, contentChecksum e = Some c →
         ∃ d, c = [("MD5", d)]
              ∧ md5 w (directory ++ PyStr.components (ent_id e)) = Ok d.
Proof.
  intros H Hin. destruct (entity_origin _ _ _ _ _ H Hin) as [Hroot|Hit].
  - destruct Hroot as (_ & -> & -> & _). split.
    + split; [by intros [? [=]] | by intros [[=] _]].
    + done.
  - destruct Hit as (it & e0 & _ & He0 & -> & -> & _ & ->).
    apply make_entity_Ok in He0 as (_ & _ & _ & _ & _ & _ & Hl).
    rewrite <- looks_for_resource_spec.
    destruct (looks_for_resource it).
    + destruct Hl as ((d & Hd & ->) & _). split; [done|].
      intros c [= <-]. eauto.
    + destruct Hl as [-> _]. split; [|done].
      split; [by intros [? [=]] | done].
Qed.

Lemma C2_witness :
  let e := Entity "a.csv" FileT "a.csv" None (Some (PyString "Attribute table"))
                  (Some [("MD5", "m_a")]) None (Some "a.resource.yaml") in
  (is_Some (contentChecksum e)
   ↔ ent_type e = FileT ∧ PyStr.endswith (ent_id e) resource_suffix = false)
  ∧ ∀ c, contentChecksum e = Some c →
         ∃ d, c = [("MD5", d)]
              ∧ md5 Example.scenario
                  (Example.out_dir ++ PyStr.components (ent_id e)) = Ok d.
Proof.
  intros e.
  apply (C2_checksum_iff_data_file Example.scenario Example.out_dir []
           [root_entity Example.scenario Example.out_dir;
            e;
            Entity "a.resource.yaml" FileT "a.resource.yaml" None None None None None;
            Entity "b" Directory "b" None None None (Some ["b/x.txt"]) None;
            Entity "b/x.txt" FileT "x.txt" None None (Some [("MD5", "m_x")]) None None]).
  - vm_compute. reflexivity.
  - apply list_elem_of_In. vm_compute. right. left. reflexivity.
Defined.

(** C2, as stated, fails on the scenario of the specification: the entity
    of [a.resource.yaml] is a File and has no checksum. *)
Lemma C2_counterexample :
  ∃ g, manifest Example.scenario Example.out_dir [] = Ok g
       ∧ ¬ spec_checksum_iff_file g.
Proof.
  eexists. split; [vm_compute; reflexivity|].
  intros Hspec.
  specialize (Hspec (Entity "a.resource.yaml" FileT "a.resource.yaml"
                            None None None None None)).
  destruct Hspec as [_ Hspec].
  - apply list_elem_of_In. simpl. auto.
  - destruct (Hspec eq_refl) as [c Hc]. discriminate.
Qed.

(** C3 (amended).  When the function runs in the directory it walks, a
    description is attached to a File entity whose path does not end in
    [.resource.yaml] iff the candidate descriptor path exists on the disk
    below that directory, whether or not the walk produced an entry for
    it; the description is then what the descriptor yields. *)
Theorem C3_description_iff_on_disk w directory omit_names g e :
  cwd w = directory →
  manifest w directory omit_names = Ok g → e ∈ g →
  ent_type e = FileT → PyStr.endswith (ent_id e) resource_suffix = false →
  (is_Some (description e)
   ↔ is_Some (lookup_node
                (directory ++ PyStr.components (resource_file_of (ent_id e)))
                (disk w)))
  ∧ ∀ d, description e = Some d →
         get_description_from_resource_file w (resource_file_of (ent_id e)) = Ok d.
Proof.
  intros Hcwd H Hin Hty Hsuf.
  destruct (entity_origin _ _ _ _ _ H Hin) as [Hroot|Hit].
  - destruct Hroot as (_ & Hd & _). congruence.
  - destruct Hit as (it & e0 & _ & He0 & Hid & Hty' & -> & _).
    rewrite Hid in *. rewrite Hty' in Hty.
    apply make_entity_Ok in He0 as (_ & _ & _ & _ & _ & _ & Hl).
    rewrite (proj2 (looks_for_resource_spec it)) in Hl by done.
    destruct Hl as (_ & Hex & Hval). split; [|done].
    rewrite Hex. unfold os_path_exists. rewrite Hcwd.
    apply bool_decide_eq_true.
Qed.

Lemma C3_witness :
  let e := Entity "a.csv" FileT "a.csv" None (Some (PyString "Attribute table"))
                  (Some [("MD5", "m_a")]) None (Some "a.resource.yaml") in
  (is_Some (description e)
   ↔ is_Some (lookup_node
                (Example.out_dir ++ PyStr.components (resource_file_of (ent_id e)))
                (disk Example.scenario)))
  ∧ ∀ d, description e = Some d →
         get_description_from_resource_file Example.scenario
           (resource_file_of (ent_id e)) = Ok d.
Proof.
  intros e.
  apply (C3_description_iff_on_disk Example.scenario Example.out_dir []
           [root_entity Example.scenario Example.out_dir;
            e;
            Entity "a.resource.yaml" FileT "a.resource.yaml" None None None None None;
            Entity "b" Directory "b" None None None (Some ["b/x.txt"]) None;
            Entity "b/x.txt" FileT "x.txt" None None (Some [("MD5", "m_x")]) None None]).
  - reflexivity.
  - vm_compute. reflexivity.
  - apply list_elem_of_In. vm_compute. right. left. reflexivity.
  - reflexivity.
  - vm_compute. reflexivity.
Defined.

(** C3, as stated, fails when the descriptor is on the disk but left out
    of the walk: with [a.resource.yaml] among the omitted names, [a.csv]
    still gets its description. *)
Lemma C3_counterexample :
  ∃ g, manifest Example.scenario Example.out_dir ["a.resource.yaml"] = Ok g
       ∧ ¬ spec_description_iff_walked
             (list_directory_contents ["a.resource.yaml"]
                Example.scenario Example.out_dir) g.
Proof.
  eexists. split; [vm_compute; reflexivity|].
  intros Hspec.
  specialize (Hspec (Entity "a.csv" FileT "a.csv" None
                            (Some (PyString "Attribute table"))
                            (Some [("MD5", "m_a")]) None None)).
  destruct Hspec as [Hspec _].
  - apply list_elem_of_In. simpl. auto.
  - reflexivity.
  - vm_compute. reflexivity.
  - assert (resource_file_of "a.csv"
            ∈ item_path <$> list_directory_contents ["a.resource.yaml"]
                              Example.scenario Example.out_dir) as Hin
      by (apply Hspec; by eexists).
    apply list_elem_of_In in Hin. vm_compute in Hin.
    intuition discriminate.
Qed.

Lemma write_metadata_cases w doc :
  write_metadata w doc = (Untouched, Raise OSError)
  ∨ (write_metadata w doc = (Dumped doc, Ok ())
     ∧ forallb entity_serializable (graph doc) = true)
  ∨ (write_metadata w doc = (Truncated, Raise TypeError)
     ∧ forallb entity_serializable (graph doc) = false).
Proof.
  unfold write_metadata.
  destruct (lookup_node (cwd w) (disk w)) as [[f|ch]|]; [by left| |by left].
  destruct (lookup_node (cwd w ++ ["ro-crate-metadata.json"]) (disk w))
    as [[f'|ch']|]; [|by left|];
    destruct (forallb entity_serializable (graph doc)); auto.
Qed.

Lemma forallb_false_elem {A} (f : A → bool) (l : list A) :
  forallb f l = false → ∃ x, x ∈ l ∧ f x = false.
Proof.
  induction l as [|a l IH]; simpl; [done|].
  destruct (f a) eqn:E; simpl.
  - intros H. destruct (IH H) as (x & ? & ?). exists x. split; [by right | done].
  - intros _. exists a. split; [left | done].
Qed.

(** C4 (amended).  The manifest is written in place.  A failure before
    the file is opened (a checksum or a descriptor that cannot be read, a
    destination that cannot be opened) leaves the destination untouched,
    and a run that ends well leaves the whole document there; but a
    description that [json.dump] cannot encode is met after the file was
    created or emptied, and leaves it incomplete. *)
Theorem C4_written_in_place w directory omit_names :
  let r := create_and_write_ro_crate_metadata w directory omit_names in
  (∀ x, manifest w directory omit_names = Raise x → r = (Untouched, Raise x))
  ∧ (r.2 = Ok () →
     ∃ g, manifest w directory omit_names = Ok g
          ∧ r.1 = Dumped (Metadata "https://w3id.org/ro/crate/1.1/context" g))
  ∧ (r.1 = Truncated ↔ r.2 = Raise TypeError)
  ∧ (r.1 = Truncated →
     ∃ g e, manifest w directory omit_names = Ok g ∧ e ∈ g
            ∧ entity_serializable e = false)
  ∧ (∀ x, r.2 = Raise x → x ≠ TypeError → r.1 = Untouched).
Proof.
  unfold create_and_write_ro_crate_metadata, manifest.
  destruct (build_graph w directory _) as [g|x] eqn:E; simpl.
  - destruct (write_metadata_cases w
                (Metadata "https://w3id.org/ro/crate/1.1/context" g))
      as [->|[[-> Hser]|[-> Hser]]]; simpl in *.
    + split_and!; try done; try (by intros ? [= <-]).
    + split_and!; try done; try (by intros ? [= <-]). intros _. by exists g.
    + split_and!; try done; try (by intros ? [= <-]).
      intros _. apply forallb_false_elem in Hser as (e & ? & ?). by exists g, e.
  - split_and!; try done; try (by intros ? [= <-]).
    split; [done|]. intros [= ->].
    apply build_graph_Raise in E as (it & _ & E).
    apply make_entity_Raise in E. by destruct E.
Qed.

(** C4, as stated, fails when a descriptor gives a date as description:
    the build ends well, the file is opened and emptied, and [json.dump]
    then raises. *)
Lemma C4_counterexample :
  ¬ spec_all_or_nothing
      (create_and_write_ro_crate_metadata
         (Example.with_descriptor
            (Loads (PyDict [("description", PyDate "2024-06-14")])))
         Example.out_dir []).
Proof. vm_compute. tauto. Qed.

(** In the manifest of a walk, only the item of an entity can have its
    [isDescribedBy] set on that entity. *)
Lemma described_at_self w directory omit_names (m : gmap string nat) (i : nat) it it' :
  well_formed (disk w) = true →
  (∀ p, m !! p = S <$> last_index p (list_directory_contents omit_names w directory)) →
  list_directory_contents omit_names w directory !! i = Some it →
  it' ∈ list_directory_contents omit_names w directory →
  m !! item_path it' = Some (S i) → it' = it.
Proof.
  intros Hwf Hm Hi Hin' H3. rewrite Hm in H3.
  destruct (last_index _ _) as [j|] eqn:E; [|done]. inversion H3; subst j.
  apply last_index_lookup in E as (it2 & Hi2 & Hp2).
  rewrite Hi in Hi2. inversion Hi2; subst it2.
  symmetry. eapply contents_path_inj; eauto. by eapply list_elem_of_lookup_2.
Qed.

(** C5.  In the manifest of a walk, a File entity whose path does not end
    in [.resource.yaml] has [isDescribedBy] set, to its path without
    extension followed by [.resource.yaml], iff the walk produced an entry
    with exactly that path, and has none otherwise; a File entity whose
    path ends in [.resource.yaml] never has one. *)
Theorem C5_described_by_iff_descriptor_walked w directory omit_names g e :
  well_formed (disk w) = true →
  manifest w directory omit_names = Ok g → e ∈ g → ent_type e = FileT →
  if PyStr.endswith (ent_id e) resource_suffix
  then isDescribedBy e = None
  else (resource_file_of (ent_id e)
          ∈ item_path <$> list_directory_contents omit_names w directory →
        isDescribedBy e = Some (resource_file_of (ent_id e)))
       ∧ (resource_file_of (ent_id e)
            ∉ item_path <$> list_directory_contents omit_names w directory →
          isDescribedBy e = None).
Proof.
  intros Hwf H Hin Hty.
  destruct (graph_elem _ _ _ _ _ H Hin) as (m & Hm & [Hroot|Hit]).
  { destruct Hroot as (_ & _ & Hd & _). congruence. }
  destruct Hit as (i & it & e0 & _ & Hi & He0 & ->).
  destruct (item_entity_fields w directory m (S i) it e0
              (list_directory_contents omit_names w directory) He0)
    as (Hid & Hty' & _).
  rewrite Hid. rewrite Hty' in Hty.
  pose proof (make_entity_Ok _ _ _ _ He0) as (_ & _ & _ & _ & _ & Hnone & _).
  pose proof (list_elem_of_lookup_2 _ _ _ Hi) as Hin_it.
  pose proof (contents_paths_NoDup omit_names w directory Hwf) as Hnd.
  assert (∀ it', it' ∈ list_directory_contents omit_names w directory →
                 described_at m (S i) it' → it' = it) as Hself.
  { intros it' Hin' (_ & _ & H3). by eapply described_at_self. }
  destruct (PyStr.endswith (item_path it) resource_suffix) eqn:Hsuf.
  - rewrite link_fold_not_described; [done|].
    intros it' Hin' Hd. pose proof (Hself _ Hin' Hd). subst it'.
    destruct Hd as (Hl & _). apply looks_for_resource_spec in Hl as [_ Hl].
    congruence.
  - split.
    + intros Hrf.
      assert (described_at m (S i) it) as Hd.
      { split_and!.
        - by apply looks_for_resource_spec.
        - rewrite Hm. apply fmap_is_Some. by apply last_index_is_Some.
        - rewrite Hm. by rewrite (last_index_NoDup _ _ _ Hnd Hi). }
      destruct (link_fold_described directory m (S i) _ e0 it Hin_it Hd)
        as (it' & Hin' & Hd' & ->).
      by rewrite (Hself _ Hin' Hd').
    + intros Hrf. rewrite link_fold_not_described; [done|].
      intros it' Hin' Hd. pose proof (Hself _ Hin' Hd). subst it'.
      destruct Hd as (_ & Hs & _). rewrite Hm in Hs.
      apply fmap_is_Some in Hs. by apply last_index_is_Some in Hs.
Qed.

Lemma C5_witness :
  let e := Entity "a.csv" FileT "a.csv" None (Some (PyString "Attribute table"))
                  (Some [("MD5", "m_a")]) None (Some "a.resource.yaml") in
  (resource_file_of (ent_id e)
     ∈ item_path <$> list_directory_contents [] Example.scenario Example.out_dir →
   isDescribedBy e = Some (resource_file_of (ent_id e)))
  ∧ (resource_file_of (ent_id e)
       ∉ item_path <$> list_directory_contents [] Example.scenario Example.out_dir →
     isDescribedBy e = None).
Proof.
  intros e.
  apply (C5_described_by_iff_descriptor_walked Example.scenario Example.out_dir []
           [root_entity Example.scenario Example.out_dir;
            e;
            Entity "a.resource.yaml" FileT "a.resource.yaml" None None None None None;
            Entity "b" Directory "b" None None None (Some ["b/x.txt"]) None;
            Entity "b/x.txt" FileT "x.txt" None None (Some [("MD5", "m_x")]) None None]
           e).
  - vm_compute. reflexivity.
  - vm_compute. reflexivity.
  - apply list_elem_of_In. vm_compute. right. left. reflexivity.
  - reflexivity.
Defined.

Lemma lookup_below_valid w directory rel n :
  well_formed (disk w) = true →
  lookup_node (directory ++ rel) (disk w) = Some n → valid_path rel.
Proof.
  intros Hwf Hl. apply well_formed_lookup in Hl as [_ Hv]; [|done].
  by apply Forall_app in Hv as [_ Hv].
Qed.

(** C6.  In the manifest of a walk, a file or directory of the disk that
    has an omitted name (a name of [omit_names], or one ending in [.git]
    or [.ipynb_checkpoints]) on its path below the walked directory has no
    entity, and every other one has its entity; with [omit_names = ["tmp"]]
    this leaves out [tmp] and all below it, and keeps [tmp2] and the kept
    names below it. *)
Theorem C6_omitted_names_produce_nothing w directory omit_names g :
  well_formed (disk w) = true →
  manifest w directory omit_names = Ok g →
  (∀ rel n, lookup_node (directory ++ rel) (disk w) = Some n →
            Exists (λ c, should_omit omit_names c = true) rel →
            ∀ e, e ∈ g → ent_id e ≠ PyStr.join rel)
  ∧ (∀ rel n, rel ≠ [] → lookup_node (directory ++ rel) (disk w) = Some n →
              Forall (kept omit_names) rel →
              ∃ e, e ∈ g ∧ ent_id e = PyStr.join rel
                   ∧ ent_type e = if is_dir n then Directory else FileT)
  ∧ (omit_names = ["tmp"] →
     (∀ rest, Exists (λ c, should_omit omit_names c = true) ("tmp" :: rest))
     ∧ (∀ rest, Forall (kept omit_names) rest →
                Forall (kept omit_names) ("tmp2" :: rest))).
Proof.
  intros Hwf H. split_and!.
  - intros rel n Hl Hex e He Heq.
    pose proof (lookup_below_valid _ _ _ _ Hwf Hl) as Hv.
    assert (rel ≠ []) as Hne by (intros ->; by apply Exists_nil in Hex).
    destruct (manifest_item_of_entity _ _ _ _ _ H He) as [Hid|(it & Hin & Hid)].
    + rewrite Hid in Heq. symmetry in Heq. by apply join_not_root_id in Heq.
    + destruct (contents_sound _ _ _ _ Hwf Hin)
        as (rel' & nm & c & _ & Hp & _ & Hk & Hv').
      rewrite Hid, Hp in Heq. apply join_inj in Heq; try done;
        [|by destruct rel'].
      subst rel. apply Exists_exists in Hex as (c0 & Hc0 & Hom).
      rewrite Forall_forall in Hk. specialize (Hk _ Hc0). simpl in Hk. congruence.
  - intros rel n Hne Hl Hk.
    destruct (exists_last Hne) as (rel' & nm & ->).
    pose proof (contents_complete omit_names w directory rel' nm n Hl Hk) as Hin.
    destruct (manifest_entity_of_item _ _ _ _ _ H Hin) as (e & He & Hid & Hty).
    exists e. split_and!; [done| |done].
    by rewrite Hid, item_of_path.
  - intros ->. split; intros rest.
    + by left.
    + intros Hk. by constructor.
Qed.

Lemma C6_witness :
  (∀ e, e ∈ Example.tmp_graph → ent_id e ≠ "tmp/y.txt")
  ∧ (∃ e, e ∈ Example.tmp_graph ∧ ent_id e = "tmp2/z.txt" ∧ ent_type e = FileT).
Proof.
  destruct (C6_omitted_names_produce_nothing
              Example.tmp_dirs Example.out_dir ["tmp"] Example.tmp_graph)
    as (Hout & Hin & Htmp).
  - vm_compute. reflexivity.
  - vm_compute. reflexivity.
  - destruct (Htmp eq_refl) as [Hex Hall]. split.
    + apply (Hout ["tmp"; "y.txt"] (File (Example.data_file "m_y")));
        [vm_compute; reflexivity | apply Hex].
    + apply (Hin ["tmp2"; "z.txt"] (File (Example.data_file "m_z")));
        [done | vm_compute; reflexivity |].
      apply Hall. by repeat constructor.
Defined.

(** C7 (the code departs from the claim).  The claim wants an empty
    description for a descriptor that parses but is no mapping, such as an
    empty document.  The code calls [.get] on whatever [yaml.safe_load]
    returns: for every document that is not a mapping the call raises
    [AttributeError], and the whole run ends with that exception before
    anything is written. *)
Theorem C7_descriptor_that_is_no_mapping_raises doc :
  (∀ kv, doc ≠ PyDict kv) →
  get_description_from_resource_file
    (Example.with_descriptor (Loads doc)) "a.resource.yaml"
  = Raise AttributeError
  ∧ create_and_write_ro_crate_metadata
      (Example.with_descriptor (Loads doc)) Example.out_dir []
    = (Untouched, Raise AttributeError).
Proof.
  intros Hdoc. destruct doc; try (by vm_compute).
  by destruct (Hdoc kv).
Qed.

Lemma C7_witness :
  get_description_from_resource_file
    (Example.with_descriptor (Loads PyNone)) "a.resource.yaml"
  = Raise AttributeError
  ∧ create_and_write_ro_crate_metadata
      (Example.with_descriptor (Loads PyNone)) Example.out_dir []
    = (Untouched, Raise AttributeError).
Proof.
  apply (C7_descriptor_that_is_no_mapping_raises PyNone). intros kv. discriminate.
Defined.




(** The graph of the contents [Example.duplicates]: of the two entities
    with the id [b] the later one has the part, and of the two with the id
    [a.csv] the later one has the link to the descriptor. *)
Lemma duplicates_build :
  build_graph Example.scenario Example.out_dir Example.duplicates
  = Ok Example.duplicates_graph.
Proof. vm_compute. reflexivity. Qed.




(** C9 (amended).  In the manifest of a walk, an empty directory reached
    through kept names has exactly one entity, of type Directory; the walk
    finds no entry in it, and its entity has no [hasPart] key at all: the
    list is only created when a first part is appended. *)
Theorem C9_empty_directory_has_no_hasPart w directory omit_names g rel :
  well_formed (disk w) = true →
  manifest w directory omit_names = Ok g →
  lookup_node (directory ++ rel) (disk w) = Some (Dir []) →
  rel ≠ [] → Forall (kept omit_names) rel →
  (∃ (i : nat) e, g !! i = Some e ∧ ent_id e = PyStr.join rel
                  ∧ ent_type e = Directory ∧ hasPart e = None
                  ∧ ∀ (i' : nat) e', g !! i' = Some e' →
                                     ent_id e' = PyStr.join rel → i' = i)
  ∧ ∀ it, it ∈ list_directory_contents omit_names w directory →
          item_root it ≠ directory ++ rel.
Proof.
  intros Hwf H Hl Hne Hk.
  pose proof (lookup_below_valid _ _ _ _ Hwf Hl) as Hv.
  pose proof (contents_of_root omit_names w directory rel [] Hwf Hl Hk) as Hblock.
  change (walk_body _ _ _) with (@nil item) in Hblock.
  pose proof (contents_paths_NoDup omit_names w directory Hwf) as Hnd.
  split; [|intros it Hin Hroot;
           by apply (filter_nil_not_elem_of _ _ it Hblock Hroot)].
  destruct (exists_last Hne) as (rel' & nm & Hrel).
  pose proof Hl as Hl'. rewrite Hrel in Hl', Hk.
  pose proof (contents_complete omit_names w directory rel' nm _ Hl' Hk) as Hin.
  apply list_elem_of_lookup in Hin as [i Hi].
  pose proof (item_of_path directory rel' nm (Dir [])) as Hpath.
  rewrite <- Hrel in Hpath.
  destruct (graph_entity_of_item _ _ _ _ _ _ H Hi) as [e He].
  pose proof H as H'. apply graph_entities in H' as (m & Hm & _ & Hroot & Hrest).
  destruct (Hrest i e He) as (it' & e0 & Hi' & He0 & Hfold).
  rewrite Hi in Hi'. inversion Hi'; subst it'. clear Hi'.
  destruct (item_entity_fields w directory m (S i) _ e0
              (list_directory_contents omit_names w directory) He0)
    as (Hid & Hty & _).
  rewrite <- Hfold in Hid, Hty.
  exists (S i), e. split_and!; try done.
  - by rewrite Hid.
  - rewrite Hfold, link_fold_hasPart.
    rewrite (children_filter w directory omit_names m i _ rel Hwf Hm Hi Hpath Hv Hne).
    rewrite Hblock. simpl.
    by apply make_entity_Ok in He0 as (_ & _ & _ & _ & Hh & _).
  - intros [|k] e' He' Hid'.
    + destruct Hroot as (r & Hr & Hrid & _). rewrite He' in Hr.
      inversion Hr; subst r. rewrite Hrid in Hid'.
      symmetry in Hid'. by apply join_not_root_id in Hid'.
    + destruct (Hrest k e' He') as (it' & e0' & Hk' & He0' & Hfold').
      destruct (item_entity_fields w directory m (S k) _ e0'
                  (list_directory_contents omit_names w directory) He0')
        as (Hid2 & _).
      rewrite <- Hfold' in Hid2. rewrite Hid2, <- Hpath in Hid'.
      pose proof (last_index_NoDup _ _ _ Hnd Hk') as E1.
      pose proof (last_index_NoDup _ _ _ Hnd Hi) as E2.
      rewrite Hid' in E1. rewrite E1 in E2. by inversion E2.
Qed.

Lemma C9_witness :
  (∃ (i : nat) e, Example.empty_dir_graph !! i = Some e ∧ ent_id e = PyStr.join ["d"]
                  ∧ ent_type e = Directory ∧ hasPart e = None
                  ∧ ∀ (i' : nat) e', Example.empty_dir_graph !! i' = Some e' →
                                     ent_id e' = PyStr.join ["d"] → i' = i)
  ∧ ∀ it, it ∈ list_directory_contents [] Example.empty_dir Example.out_dir →
          item_root it ≠ Example.out_dir ++ ["d"].
Proof.
  apply (C9_empty_directory_has_no_hasPart
           Example.empty_dir Example.out_dir [] Example.empty_dir_graph ["d"]).
  - vm_compute. reflexivity.
  - vm_compute. reflexivity.
  - vm_compute. reflexivity.
  - discriminate.
  - by repeat constructor.
Defined.

(** C9, as stated, fails on a directory [d] with nothing in it: its entity
    has no [hasPart], where the claim wants an empty one. *)
Lemma C9_counterexample :
  ∃ g, manifest Example.empty_dir Example.out_dir [] = Ok g
       ∧ ¬ spec_empty_hasPart g "d".
Proof.
  eexists. split; [vm_compute; reflexivity|].
  intros Hspec.
  specialize (Hspec (Entity "d" Directory "d" None None None None None)).
  assert (@None (list string) = Some []) as Habs; [|discriminate].
  apply Hspec; [|reflexivity].
  apply list_elem_of_In. simpl. auto.
Qed.

Lemma add_parts_None_Some ks parts :
  add_parts None ks = Some parts → parts = ks ∧ ks ≠ [].
Proof. destruct ks; simpl; [done|]. by intros [= <-]. Qed.

(** C10.  In one walk, the items found in a directory are its kept files,
    in the order the directory lists them, followed by its kept
    sub-directories, in that order; and every [hasPart] list of the
    manifest is empty or is, for the directory the entity stands for, the
    paths of its kept files followed by those of its kept sub-directories,
    each group in the order of the listing. *)
Theorem C10_files_before_directories w directory omit_names g :
  well_formed (disk w) = true →
  manifest w directory omit_names = Ok g →
  (∀ rel children,
     lookup_node (directory ++ rel) (disk w) = Some (Dir children) →
     Forall (kept omit_names) rel →
     filter (λ it, item_root it = directory ++ rel)
            (list_directory_contents omit_names w directory)
     = ((λ nm, Item FileT (PyStr.join (rel ++ [nm])) (directory ++ rel))
          <$> filter (kept omit_names) (file_names children))
       ++ ((λ nm, Item Directory (PyStr.join (rel ++ [nm])) (directory ++ rel))
             <$> filter (kept omit_names) (dir_names children)))
  ∧ (∀ e parts, e ∈ g → hasPart e = Some parts →
       parts = []
       ∨ ∃ rel children,
           ent_id e = PyStr.join rel
           ∧ lookup_node (directory ++ rel) (disk w) = Some (Dir children)
           ∧ parts = ((λ nm, PyStr.join (rel ++ [nm]))
                        <$> filter (kept omit_names) (file_names children))
                     ++ ((λ nm, PyStr.join (rel ++ [nm]))
                           <$> filter (kept omit_names) (dir_names children))).
Proof.
  intros Hwf H. split.
  - intros rel children Hl Hk.
    rewrite (contents_of_root omit_names w directory rel children Hwf Hl Hk).
    unfold walk_body, visit.
    rewrite (list_filter_filter_l _ _ (dir_names children)) by done.
    f_equal; apply list_fmap_ext; intros i nm _; f_equal;
      rewrite <- app_assoc, relpath_under; by destruct rel.
  - intros e parts Hin Hparts.
    destruct (graph_elem _ _ _ _ _ H Hin) as (m & Hm & [Hroot|Hit]).
    { left. destruct Hroot as (_ & _ & _ & Hh & _). congruence. }
    right. destruct Hit as (i & it & e0 & _ & Hi & He0 & ->).
    pose proof (list_elem_of_lookup_2 _ _ _ Hi) as Hin_it.
    destruct (contents_sound _ _ _ _ Hwf Hin_it)
      as (rel' & nm & c & Hit & Hp & Hl & Hk & Hv).
    destruct (item_entity_fields w directory m (S i) it e0
                (list_directory_contents omit_names w directory) He0)
      as (Hid & _).
    rewrite link_fold_hasPart in Hparts.
    apply make_entity_Ok in He0 as (_ & _ & _ & _ & Hh & _). rewrite Hh in Hparts.
    rewrite (children_filter w directory omit_names m i it (rel' ++ [nm])
               Hwf Hm Hi Hp Hv) in Hparts by (by destruct rel').
    destruct c as [f|children].
    + rewrite contents_of_no_root in Hparts; [done..|].
      intros children. congruence.
    + rewrite (contents_of_root omit_names w directory (rel' ++ [nm]) children
                 Hwf Hl Hk) in Hparts.
      rewrite walk_body_paths in Hparts.
      apply add_parts_None_Some in Hparts as [-> _].
      exists (rel' ++ [nm]), children. split_and!; [by rewrite Hid | done |].
      rewrite fmap_app.
      by rewrite (list_filter_filter_l _ _ (dir_names children)) by done.
Qed.

Lemma C10_witness :
  (∀ rel children,
     lookup_node (Example.out_dir ++ rel) (disk Example.scenario)
     = Some (Dir children) →
     Forall (kept []) rel →
     filter (λ it, item_root it = Example.out_dir ++ rel)
            (list_directory_contents [] Example.scenario Example.out_dir)
     = ((λ nm, Item FileT (PyStr.join (rel ++ [nm])) (Example.out_dir ++ rel))
          <$> filter (kept []) (file_names children))
       ++ ((λ nm, Item Directory (PyStr.join (rel ++ [nm])) (Example.out_dir ++ rel))
             <$> filter (kept []) (dir_names children)))
  ∧ (∀ e parts, e ∈ Example.scenario_graph → hasPart e = Some parts →
       parts = []
       ∨ ∃ rel children,
           ent_id e = PyStr.join rel
           ∧ lookup_node (Example.out_dir ++ rel) (disk Example.scenario)
             = Some (Dir children)
           ∧ parts = ((λ nm, PyStr.join (rel ++ [nm]))
                        <$> filter (kept []) (file_names children))
                     ++ ((λ nm, PyStr.join (rel ++ [nm]))
                           <$> filter (kept []) (dir_names children))).
Proof.
  apply (C10_files_before_directories
           Example.scenario Example.out_dir [] Example.scenario_graph).
  - vm_compute. reflexivity.
  - vm_compute. reflexivity.
Defined.

(** * More facts about path strings *)

Section MorePathFacts.

Lemma string_app_cons x a b : String x a +:+ b = String x (a +:+ b).
Proof. reflexivity. Qed.

Lemma string_app_nil_l b : "" +:+ b = b.
Proof. reflexivity. Qed.

(** [String.append] does not unfold under [simpl]. *)
Ltac str_simpl :=
  repeat (rewrite string_app_cons || rewrite string_app_nil_l); simpl.

Lemma string_app_assoc a b c : (a +:+ b) +:+ c = a +:+ (b +:+ c).
Proof. induction a as [|x a IH]; str_simpl; [done|]. f_equal. apply IH. Qed.

Lemma string_app_nil_r a : a +:+ "" = a.
Proof. induction a as [|x a IH]; str_simpl; [done|]. f_equal. apply IH. Qed.

Lemma string_length_app a b :
  String.length (a +:+ b) = (String.length a + String.length b)%nat.
Proof. induction a as [|x a IH]; str_simpl; [done|]. f_equal. apply IH. Qed.

Lemma substring_all s : substring 0 (String.length s) s = s.
Proof. induction s as [|x s IH]; str_simpl; [done|]. f_equal. apply IH. Qed.

Lemma substring_skip a b n :
  substring (String.length a) n (a +:+ b) = substring 0 n b.
Proof. induction a as [|x a IH]; str_simpl; [done|]. apply IH. Qed.

Lemma substring_prefix a b :
  substring 0 (String.length a) (a +:+ b) = a.
Proof.
  induction a as [|x a IH]; str_simpl; [by destruct b|]. f_equal. apply IH.
Qed.

(** [(s + suffix).endswith(suffix)] *)
Lemma endswith_app s suffix : PyStr.endswith (s +:+ suffix) suffix = true.
Proof.
  unfold PyStr.endswith. rewrite string_length_app.
  apply andb_true_iff. split; [apply Nat.leb_le; lia|].
  replace (String.length s + String.length suffix - String.length suffix)%nat
    with (String.length s) by lia.
  rewrite substring_skip, substring_all. apply String.eqb_refl.
Qed.

Lemma split_from_slash_free s : ∀ acc,
  slash_free s → PyStr.split_from acc s = [acc +:+ s].
Proof.
  unfold slash_free. induction s as [|x s IH]; intros acc Hs; str_simpl.
  - by rewrite string_app_nil_r.
  - simpl in Hs. apply orb_false_iff in Hs as [Hx Hs]. rewrite Hx.
    rewrite IH by done. by rewrite string_app_assoc.
Qed.

Lemma split_from_cut s : ∀ acc t,
  slash_free s →
  PyStr.split_from acc (s +:+ "/" +:+ t) = (acc +:+ s) :: PyStr.split_from "" t.
Proof.
  unfold slash_free. induction s as [|x s IH]; intros acc t Hs; str_simpl.
  - by rewrite string_app_nil_r.
  - simpl in Hs. apply orb_false_iff in Hs as [Hx Hs]. rewrite Hx.
    change (String "/"%char t) with ("/" +:+ t).
    rewrite IH by done. by rewrite string_app_assoc.
Qed.

Lemma split_join rel :
  valid_path rel → rel ≠ [] → PyStr.split_from "" (PyStr.join rel) = rel.
Proof.
  induction rel as [|c rel IH]; intros Hv Hne; [done|].
  apply Forall_cons in Hv as [Hc Hv].
  destruct (decide (rel = [])) as [->|Hn].
  - str_simpl. by rewrite split_from_slash_free by (by apply valid_name_slash_free).
  - rewrite (join_cons c rel Hn).
    rewrite split_from_cut by (by apply valid_name_slash_free). str_simpl.
    by rewrite IH.
Qed.

(** Splitting a joined path gives back its components. *)
Lemma components_join rel :
  valid_path rel → PyStr.components (PyStr.join rel) = rel.
Proof.
  intros Hv. unfold PyStr.components.
  destruct rel as [|c rel]; [done|].
  rewrite split_join by done. apply filter_all.
  intros x Hx. unfold valid_path in Hv. rewrite Forall_forall in Hv.
  apply valid_name_nonempty. by apply Hv.
Qed.

Lemma rfind_slash_free s i :
  (0 ≤ i)%Z → slash_free s → PyStr.rfind_from "/" s i = (-1)%Z.
Proof.
  intros Hi Hs. pose proof (rfind_from_occurs "/" s i Hi) as H.
  unfold slash_free in Hs. rewrite Hs in H. simpl in H.
  apply Z.ltb_lt in H. destruct (rfind_from_range "/" s i); lia.
Qed.

Lemma rfind_last_slash pre nm : ∀ i,
  (0 ≤ i)%Z → slash_free nm →
  PyStr.rfind_from "/" (pre +:+ "/" +:+ nm) i = (i + Z.of_nat (String.length pre))%Z.
Proof.
  induction pre as [|x pre IH]; intros i Hi Hnm; str_simpl.
  - rewrite rfind_slash_free by (done || lia). str_simpl. lia.
  - rewrite IH by (done || lia).
    destruct (0 <=? _)%Z eqn:E; [lia|]. apply Z.leb_gt in E. lia.
Qed.

Lemma join_snoc rel nm :
  rel ≠ [] → PyStr.join (rel ++ [nm]) = PyStr.join rel +:+ "/" +:+ nm.
Proof.
  induction rel as [|c rel IH]; intros Hne; [done|].
  destruct (decide (rel = [])) as [->|Hn]; [done|].
  rewrite <- app_comm_cons, (join_cons c (rel ++ [nm])) by (by destruct rel).
  rewrite IH, (join_cons c rel) by done. by rewrite !string_app_assoc.
Qed.

(** The base name of a joined path is its last component. *)
Lemma basename_join rel nm :
  valid_name nm = true → PyStr.basename (PyStr.join (rel ++ [nm])) = nm.
Proof.
  intros Hnm. pose proof (valid_name_slash_free _ Hnm) as Hs.
  unfold PyStr.basename, PyStr.rfind.
  destruct (decide (rel = [])) as [->|Hn].
  - str_simpl. rewrite rfind_slash_free by (done || lia). str_simpl.
    rewrite Nat.sub_0_r. apply substring_all.
  - rewrite join_snoc by done.
    rewrite rfind_last_slash by (done || lia).
    replace (Z.to_nat (0 + Z.of_nat (String.length (PyStr.join rel)) + 1))
      with (String.length (PyStr.join rel +:+ "/")) by (rewrite string_length_app; str_simpl; lia).
    rewrite <- string_app_assoc.
    rewrite (string_length_app (_ +:+ "/") nm).
    replace (String.length (PyStr.join rel +:+ "/") + String.length nm
             - String.length (PyStr.join rel +:+ "/"))%nat
      with (String.length nm) by lia.
    rewrite substring_skip. apply substring_all.
Qed.

End MorePathFacts.

(** * Further properties of the graph *)

Lemma Forall2_fmap_eq {A B C} (f : B → C) (f' : A → C) (P : A → B → Prop)
    (l : list A) (k : list B) :
  (∀ a b, P a b → f b = f' a) → Forall2 P l k → f <$> k = f' <$> l.
Proof.
  intros Hf H. induction H as [|a b l k Hab _ IH]; [done|].
  rewrite !fmap_cons, IH. f_equal. by apply Hf.
Qed.

(** A field the second loop leaves alone has, along the graph, the values
    the root and the first loop gave it. *)
Lemma graph_fixed_field {C} (f : entity → C) w directory contents g es
    (m : gmap string nat) :
  (∀ j e l, f (foldl (link_entity directory m j) e l) = f e) →
  (∀ j : nat, g !! j = (λ e, foldl (link_entity directory m j) e contents)
                         <$> (root_entity w directory :: es) !! j) →
  f <$> g = f (root_entity w directory) :: (f <$> es).
Proof.
  intros Hf Hg. apply list_eq. intros j.
  rewrite list_lookup_fmap, Hg, <- fmap_cons, list_lookup_fmap.
  destruct ((root_entity w directory :: es) !! j); simpl; [|done].
  by rewrite Hf.
Qed.

Lemma graph_fields w directory contents g :
  build_graph w directory contents = Ok g →
  ent_id <$> g = "./" :: (item_path <$> contents)
  ∧ ent_type <$> g = Dataset :: (item_type <$> contents)
  ∧ name <$> g = default "" (last directory)
                 :: ((λ it, PyStr.basename (item_path it)) <$> contents)
  ∧ dateCreated <$> g = Some (now w) :: ((λ _, None) <$> contents).
Proof.
  intros H. apply build_graph_Ok in H as (es & m & Hes & _ & Hg).
  split_and!.
  - rewrite (graph_fixed_field ent_id w directory contents g es m); [|  |done].
    + simpl. f_equal. eapply Forall2_fmap_eq; [|done].
      intros it e He. by apply make_entity_Ok in He as (? & _).
    + intros j e l. by destruct (link_fold_fixed directory m j l e) as (? & _).
  - rewrite (graph_fixed_field ent_type w directory contents g es m); [|  |done].
    + simpl. f_equal. eapply Forall2_fmap_eq; [|done].
      intros it e He. by apply make_entity_Ok in He as (_ & ? & _).
    + intros j e l. by destruct (link_fold_fixed directory m j l e) as (_ & ? & _).
  - rewrite (graph_fixed_field name w directory contents g es m); [|  |done].
    + simpl. f_equal. eapply Forall2_fmap_eq; [|done].
      intros it e He. by apply make_entity_Ok in He as (_ & _ & ? & _).
    + intros j e l.
      by destruct (link_fold_fixed directory m j l e) as (_ & _ & ? & _).
  - rewrite (graph_fixed_field dateCreated w directory contents g es m); [|  |done].
    + simpl. f_equal. eapply Forall2_fmap_eq; [|done].
      intros it e He. by apply make_entity_Ok in He as (_ & _ & _ & ? & _).
    + intros j e l.
      by destruct (link_fold_fixed directory m j l e) as (_ & _ & _ & ? & _).
Qed.

(** X1.  The graph holds the root first and then one entity per item of
    the contents, in the order of the contents: the ids are ["./"] and the
    items' paths, the types [Dataset] and the items' types, the names the
    base name of the directory and of each path, and only the root has a
    creation date. *)
Theorem X1_graph_follows_contents w directory contents g :
  build_graph w directory contents = Ok g →
  length g = S (length contents)
  ∧ ent_id <$> g = "./" :: (item_path <$> contents)
  ∧ ent_type <$> g = Dataset :: (item_type <$> contents)
  ∧ name <$> g = default "" (last directory)
                 :: ((λ it, PyStr.basename (item_path it)) <$> contents)
  ∧ dateCreated <$> g = Some (now w) :: ((λ _, None) <$> contents).
Proof.
  intros H. split; [|by apply graph_fields].
  by apply graph_entities in H as (_ & _ & ? & _).
Qed.

Lemma X1_witness :
  length Example.scenario_graph = 5
  ∧ ent_id <$> Example.scenario_graph
    = ["./"; "a.csv"; "a.resource.yaml"; "b"; "b/x.txt"]
  ∧ ent_type <$> Example.scenario_graph
    = [Dataset; FileT; FileT; Directory; FileT]
  ∧ name <$> Example.scenario_graph
    = ["out"; "a.csv"; "a.resource.yaml"; "b"; "x.txt"]
  ∧ dateCreated <$> Example.scenario_graph
    = [Some "2024-06-14T12:00:00"; None; None; None; None].
Proof.
  apply (X1_graph_follows_contents Example.scenario Example.out_dir
           (list_directory_contents [] Example.scenario Example.out_dir)
           Example.scenario_graph).
  vm_compute. reflexivity.
Defined.

(** X2.  In the manifest of a walk no two entities have the same id. *)
Theorem X2_entity_ids_are_unique w directory omit_names g :
  well_formed (disk w) = true →
  manifest w directory omit_names = Ok g →
  NoDup (ent_id <$> g).
Proof.
  intros Hwf H. apply graph_fields in H as (-> & _).
  apply NoDup_cons. split; [|by apply contents_paths_NoDup].
  intros Hin. apply list_elem_of_fmap in Hin as (it & Heq & Hin).
  symmetry in Heq. by apply (contents_path_not_root_id _ _ _ _ Hwf Hin).
Qed.

Lemma X2_witness : NoDup (ent_id <$> Example.scenario_graph).
Proof.
  apply (X2_entity_ids_are_unique Example.scenario Example.out_dir []).
  - vm_compute. reflexivity.
  - vm_compute. reflexivity.
Defined.

(** X3.  In the manifest of a walk, the checksum of an entity is the
    digest of the very file the entity stands for: its id is the joined
    path of a readable file below the walked directory, and the checksum
    is that file's MD5. *)
Theorem X3_checksum_is_of_the_file w directory omit_names g e c :
  well_formed (disk w) = true →
  manifest w directory omit_names = Ok g → e ∈ g →
  contentChecksum e = Some c →
  ∃ rel f, ent_id e = PyStr.join rel
           ∧ lookup_node (directory ++ rel) (disk w) = Some (File f)
           ∧ readable f = true
           ∧ c = [("MD5", digest f)].
Proof.
  intros Hwf H Hin Hc.
  destruct (entity_origin _ _ _ _ _ H Hin) as [Hroot|Hit].
  { destruct Hroot as (_ & _ & ? & _). congruence. }
  destruct Hit as (it & e0 & Hin_it & He0 & Hid & _ & _ & Hc0).
  rewrite Hc0 in Hc.
  apply make_entity_Ok in He0 as (_ & _ & _ & _ & _ & _ & Hl).
  destruct (looks_for_resource it); [|destruct Hl; congruence].
  destruct Hl as ((d & Hd & Hcd) & _).
  destruct (contents_sound _ _ _ _ Hwf Hin_it)
    as (rel & nm & n & _ & Hp & Hl & _ & Hv).
  rewrite Hp, components_join in Hd by done. unfold md5 in Hd.
  rewrite Hl in Hd. destruct n as [f|ch]; [|done].
  destruct (readable f) eqn:Hr; [|done]. inversion Hd; subst d.
  exists (rel ++ [nm]), f. split_and!; try done; congruence.
Qed.

Lemma X3_witness :
  ∃ rel f, "b/x.txt" = PyStr.join rel
           ∧ lookup_node (Example.out_dir ++ rel) (disk Example.scenario)
             = Some (File f)
           ∧ readable f = true
           ∧ [("MD5", "m_x")] = [("MD5", digest f)].
Proof.
  apply (X3_checksum_is_of_the_file Example.scenario Example.out_dir []
           Example.scenario_graph
           (Entity "b/x.txt" FileT "x.txt" None None (Some [("MD5", "m_x")])
                   None None)).
  - vm_compute. reflexivity.
  - vm_compute. reflexivity.
  - apply list_elem_of_In. vm_compute. tauto.
  - reflexivity.
Defined.

(** X4.  The build in memory can only fail in the first loop, while it
    handles a File whose path does not end in [.resource.yaml]: the
    exception is the one that the checksum of that file, or the reading of
    its descriptor, raised.  Directories, descriptor entries and the whole
    second loop, with its lookups in [path_to_entity], never make it
    fail. *)
Theorem X4_build_fails_only_on_data_files w directory contents x :
  build_graph w directory contents = Raise x →
  ∃ it, it ∈ contents ∧ item_type it = FileT
        ∧ PyStr.endswith (item_path it) resource_suffix = false
        ∧ make_entity w directory it = Raise x
        ∧ (md5 w (directory ++ PyStr.components (item_path it)) = Raise x
           ∨ get_description_from_resource_file w
               (resource_file_of (item_path it)) = Raise x).
Proof.
  intros H. apply build_graph_Raise in H as (it & Hin & H).
  exists it. pose proof H as H'. unfold make_entity in H.
  destruct (looks_for_resource it) eqn:Hl; [|done].
  apply looks_for_resource_spec in Hl as [? ?]. split_and!; try done.
  apply bind_Raise in H as [H|(e1 & _ & H)].
  - right. destruct (os_path_exists w _); [|done].
    by apply bind_Raise in H as [H|(v & _ & H)].
  - left. by apply bind_Raise in H as [H|(d & _ & H)].
Qed.

Lemma X4_witness :
  ∃ it, it ∈ [Example.a_csv] ∧ item_type it = FileT
        ∧ PyStr.endswith (item_path it) resource_suffix = false
        ∧ make_entity (Example.with_descriptor NotText) Example.out_dir it
          = Raise UnicodeDecodeError
        ∧ (md5 (Example.with_descriptor NotText)
             (Example.out_dir ++ PyStr.components (item_path it))
           = Raise UnicodeDecodeError
           ∨ get_description_from_resource_file (Example.with_descriptor NotText)
               (resource_file_of (item_path it)) = Raise UnicodeDecodeError).
Proof.
  apply (X4_build_fails_only_on_data_files
           (Example.with_descriptor NotText) Example.out_dir [Example.a_csv]).
  vm_compute. reflexivity.
Defined.

(** X5.  In the manifest of a walk, every entity but the root stands for a
    node of the disk reached from the walked directory through kept names:
    its id is the joined path of the node, its name is the node's own
    name, and its type tells whether the node is a directory. *)
Theorem X5_entity_stands_for_a_node w directory omit_names g e :
  well_formed (disk w) = true →
  manifest w directory omit_names = Ok g → e ∈ g →
  ent_id e = "./"
  ∨ ∃ rel nm n,
      lookup_node (directory ++ rel ++ [nm]) (disk w) = Some n
      ∧ Forall (kept omit_names) (rel ++ [nm])
      ∧ ent_id e = PyStr.join (rel ++ [nm])
      ∧ name e = nm
      ∧ ent_type e = if is_dir n then Directory else FileT.
Proof.
  intros Hwf H Hin.
  destruct (graph_elem _ _ _ _ _ H Hin) as (m & _ & [Hroot|Hit]).
  { left. by destruct Hroot as (_ & ? & _). }
  right. destruct Hit as (i & it & e0 & _ & Hi & He0 & ->).
  pose proof (list_elem_of_lookup_2 _ _ _ Hi) as Hin_it.
  destruct (contents_sound _ _ _ _ Hwf Hin_it)
    as (rel & nm & n & Hit & Hp & Hl & Hk & Hv).
  exists rel, nm, n.
  destruct (link_fold_fixed directory m (S i)
              (list_directory_contents omit_names w directory) e0)
    as (-> & -> & -> & _).
  apply make_entity_Ok in He0 as (-> & -> & -> & _).
  split_and!; try done.
  - rewrite Hp. apply basename_join.
    apply Forall_app in Hv as [_ Hv]. by apply Forall_cons in Hv as [? _].
  - by rewrite Hit.
Qed.

Lemma X5_witness :
  "b/x.txt" = "./"
  ∨ ∃ rel nm n,
      lookup_node (Example.out_dir ++ rel ++ [nm]) (disk Example.scenario) = Some n
      ∧ Forall (kept []) (rel ++ [nm])
      ∧ "b/x.txt" = PyStr.join (rel ++ [nm])
      ∧ "x.txt" = nm
      ∧ FileT = if is_dir n then Directory else FileT.
Proof.
  apply (X5_entity_stands_for_a_node Example.scenario Example.out_dir []
           Example.scenario_graph
           (Entity "b/x.txt" FileT "x.txt" None None (Some [("MD5", "m_x")])
                   None None)).
  - vm_compute. reflexivity.
  - vm_compute. reflexivity.
  - apply list_elem_of_In. vm_compute. tauto.
Defined.

(** X6.  In the manifest of a walk, an entry found in a sub-directory of
    the walked directory is a part of exactly one entity, the Directory
    entity of the sub-directory it was found in. *)
Theorem X6_nested_entry_has_one_parent w directory omit_names g it rel :
  well_formed (disk w) = true →
  manifest w directory omit_names = Ok g →
  it ∈ list_directory_contents omit_names w directory →
  item_root it = directory ++ rel → rel ≠ [] →
  ∃ (i : nat) p parts,
    g !! i = Some p ∧ ent_id p = PyStr.join rel ∧ ent_type p = Directory
    ∧ hasPart p = Some parts ∧ item_path it ∈ parts
    ∧ ∀ (i' : nat) p' parts',
        g !! i' = Some p' → hasPart p' = Some parts' →
        item_path it ∈ parts' → i' = i.
Proof.
  intros Hwf H Hin Hroot Hne.
  destruct (contents_sound _ _ _ _ Hwf Hin)
    as (rel0 & nm & n & Hit & Hp & Hl & Hk & Hv).
  assert (rel0 = rel) as ->.
  { rewrite Hit in Hroot. simpl in Hroot. by apply app_inv_head in Hroot. }
  apply Forall_app in Hk as [Hk _]. apply Forall_app in Hv as [Hv _].
  rewrite app_assoc in Hl. apply lookup_node_snoc in Hl as (children & Hl & _).
  destruct (exists_last Hne) as (rel' & d & ->).
  pose proof (contents_complete omit_names w directory rel' d _ Hl Hk) as Hdir.
  apply list_elem_of_lookup in Hdir as [i Hi].
  pose proof (item_of_path directory rel' d (Dir children)) as Hpath.
  destruct (graph_entity_of_item _ _ _ _ _ _ H Hi) as [p Hp_in].
  pose proof H as H'. apply graph_entities in H' as (m & Hm & _ & Hr & Hrest).
  assert (∀ (k : nat) q parts', g !! S k = Some q → hasPart q = Some parts' →
            item_path it ∈ parts' →
            m !! parent_path_of directory it = Some (S k)) as Hpar.
  { intros k q parts' Hq Hparts Hmem.
    destruct (Hrest k q Hq) as (itk & e0 & Hk' & He0 & ->).
    rewrite link_fold_hasPart in Hparts.
    apply make_entity_Ok in He0 as (_ & _ & _ & _ & Hh & _). rewrite Hh in Hparts.
    destruct (item_path <$> filter _ _) as [|q0 qs] eqn:E; [done|].
    simpl in Hparts. inversion Hparts; subst parts'. rewrite <- E in Hmem.
    apply list_elem_of_fmap in Hmem as (it' & Hpeq & Hin').
    apply list_elem_of_filter in Hin' as [Hpar Hin'].
    symmetry in Hpeq.
    by rewrite <- (contents_path_inj _ _ _ _ _ Hwf Hin' Hin Hpeq). }
  destruct (Hrest i p Hp_in) as (it' & e0 & Hi' & He0 & Hfold).
  rewrite Hi in Hi'. inversion Hi'; subst it'. clear Hi'.
  destruct (item_entity_fields w directory m (S i) _ e0
              (list_directory_contents omit_names w directory) He0)
    as (Hid & Hty & _).
  rewrite <- Hfold in Hid, Hty.
  assert (hasPart p = add_parts None
            (item_path <$> filter (λ it', item_root it' = directory ++ rel' ++ [d])
                             (list_directory_contents omit_names w directory)))
    as Hparts.
  { rewrite Hfold, link_fold_hasPart.
    rewrite (children_filter w directory omit_names m i _ (rel' ++ [d])
               Hwf Hm Hi Hpath Hv Hne).
    by apply make_entity_Ok in He0 as (_ & _ & _ & _ & -> & _). }
  assert (item_path it ∈ item_path <$>
            filter (λ it', item_root it' = directory ++ rel' ++ [d])
              (list_directory_contents omit_names w directory)) as Hmem.
  { apply list_elem_of_fmap_2. by apply list_elem_of_filter. }
  destruct (item_path <$> filter _ _) as [|q0 qs] eqn:E;
    [by apply elem_of_nil in Hmem|].
  simpl in Hparts.
  exists (S i), p, (q0 :: qs). split_and!; try done.
  - by rewrite Hid.
  - intros [|k] p' parts' Hp' Hparts' Hmem'.
    + destruct Hr as (r & Hr0 & _ & _ & Hh & _). rewrite Hp' in Hr0.
      inversion Hr0; subst r. rewrite Hh in Hparts'. inversion Hparts'; subst.
      by apply elem_of_nil in Hmem'.
    + pose proof (Hpar k p' parts' Hp' Hparts' Hmem') as E1.
      assert (item_path it ∈ q0 :: qs) as Hmem0 by done.
      pose proof (Hpar i p (q0 :: qs) Hp_in Hparts Hmem0) as E2.
      rewrite E1 in E2. by inversion E2.
Qed.

Lemma X6_witness :
  ∃ (i : nat) p parts,
    Example.scenario_graph !! i = Some p ∧ ent_id p = PyStr.join ["b"]
    ∧ ent_type p = Directory
    ∧ hasPart p = Some parts
    ∧ item_path (Item FileT "b/x.txt" (Example.out_dir ++ ["b"])) ∈ parts
    ∧ ∀ (i' : nat) p' parts',
        Example.scenario_graph !! i' = Some p' → hasPart p' = Some parts' →
        item_path (Item FileT "b/x.txt" (Example.out_dir ++ ["b"])) ∈ parts' →
        i' = i.
Proof.
  apply (X6_nested_entry_has_one_parent Example.scenario Example.out_dir []).
  - vm_compute. reflexivity.
  - vm_compute. reflexivity.
  - apply list_elem_of_In. vm_compute. tauto.
  - reflexivity.
  - discriminate.
Defined.

Lemma graph_has_entity_of_path w directory contents g p :
  build_graph w directory contents = Ok g →
  p ∈ item_path <$> contents → ∃ e, e ∈ g ∧ ent_id e = p.
Proof.
  intros H Hp. apply graph_fields in H as (Hids & _).
  assert (p ∈ ent_id <$> g) as Hin by (rewrite Hids; by right).
  apply list_elem_of_fmap in Hin as (e & -> & He). by exists e.
Qed.

(** X7.  Every reference in a built graph resolves: each id in a
    [hasPart] list is the id of an entity of the graph; and when
    [isDescribedBy] is set, it is the entity's own path with the extension
    replaced by [.resource.yaml], the entity's path does not itself end in
    [.resource.yaml], the reference is not the entity itself, and an
    entity with that id is in the graph. *)
Theorem X7_references_resolve w directory contents g e :
  build_graph w directory contents = Ok g → e ∈ g →
  (∀ parts p, hasPart e = Some parts → p ∈ parts →
              ∃ e', e' ∈ g ∧ ent_id e' = p)
  ∧ (∀ r, isDescribedBy e = Some r →
          r = resource_file_of (ent_id e)
          ∧ PyStr.endswith (ent_id e) resource_suffix = false
          ∧ r ≠ ent_id e
          ∧ ∃ e', e' ∈ g ∧ ent_id e' = r).
Proof.
  intros H Hin.
  destruct (graph_elem _ _ _ _ _ H Hin) as (m & Hm & [Hroot|Hit]).
  { destruct Hroot as (_ & _ & _ & Hh & _ & _ & Hd). split.
    - intros parts p Hparts Hp. rewrite Hh in Hparts.
      inversion Hparts; subst. by apply elem_of_nil in Hp.
    - intros r Hr. congruence. }
  destruct Hit as (i & it & e0 & _ & Hi & He0 & ->).
  destruct (item_entity_fields w directory m (S i) it e0 contents He0) as (Hid & _).
  pose proof (make_entity_Ok _ _ _ _ He0) as (_ & _ & _ & _ & Hh & Hd & _).
  split.
  - intros parts p Hparts Hp. rewrite link_fold_hasPart, Hh in Hparts.
    apply add_parts_None_Some in Hparts as [-> _].
    apply list_elem_of_fmap in Hp as (it' & -> & Hin').
    apply list_elem_of_filter in Hin' as [_ Hin'].
    eapply graph_has_entity_of_path; [done|]. by apply list_elem_of_fmap_2.
  - intros r Hr.
    destruct (decide (Exists (described_at m (S i)) contents)) as [Hex|Hno].
    + apply Exists_exists in Hex as (it1 & Hin1 & Hd1).
      destruct (link_fold_described directory m (S i) contents e0 it1 Hin1 Hd1)
        as (it2 & Hin2 & (Hl2 & Hs2 & Hp2) & Hr2).
      rewrite Hr2 in Hr. inversion Hr; subst r. clear Hr.
      rewrite Hm in Hp2.
      destruct (last_index (item_path it2) contents) as [k|] eqn:E; [|done].
      inversion Hp2; subst k. apply last_index_lookup in E as (it3 & Hi3 & Hp3).
      rewrite Hi in Hi3. inversion Hi3; subst it3.
      rewrite Hid, Hp3.
      apply looks_for_resource_spec in Hl2 as [_ Hl2].
      split_and!; try done.
      * intros Heq. unfold resource_file_of in Heq.
        rewrite <- Heq, endswith_app in Hl2. done.
      * eapply graph_has_entity_of_path; [done|].
        rewrite Hm in Hs2. apply fmap_is_Some in Hs2.
        by apply last_index_is_Some in Hs2.
    + rewrite link_fold_not_described in Hr; [congruence|].
      intros it' Hin' Hd'. apply Hno. apply Exists_exists. eauto.
Qed.

Lemma X7_witness :
  let e := Entity "a.csv" FileT "a.csv" None (Some (PyString "Attribute table"))
                  (Some [("MD5", "m_a")]) None (Some "a.resource.yaml") in
  (∀ parts p, hasPart e = Some parts → p ∈ parts →
              ∃ e', e' ∈ Example.scenario_graph ∧ ent_id e' = p)
  ∧ (∀ r, isDescribedBy e = Some r →
          r = resource_file_of (ent_id e)
          ∧ PyStr.endswith (ent_id e) resource_suffix = false
          ∧ r ≠ ent_id e
          ∧ ∃ e', e' ∈ Example.scenario_graph ∧ ent_id e' = r).
Proof.
  intros e.
  apply (X7_references_resolve Example.scenario Example.out_dir
           (list_directory_contents [] Example.scenario Example.out_dir)
           Example.scenario_graph e).
  - vm_compute. reflexivity.
  - apply list_elem_of_In. vm_compute. tauto.
Defined.

(** X8.  In the manifest of a walk each optional key sits only where it
    belongs: a creation date only on the root Dataset, a description only
    on a File whose path does not end in [.resource.yaml], an
    [isDescribedBy] only on a File, and a [hasPart] never on a File. *)
Theorem X8_keys_sit_where_they_belong w directory omit_names g e :
  well_formed (disk w) = true →
  manifest w directory omit_names = Ok g → e ∈ g →
  (is_Some (dateCreated e) → ent_type e = Dataset)
  ∧ (is_Some (description e) →
     ent_type e = FileT ∧ PyStr.endswith (ent_id e) resource_suffix = false)
  ∧ (is_Some (isDescribedBy e) → ent_type e = FileT)
  ∧ (is_Some (hasPart e) → ent_type e = Dataset ∨ ent_type e = Directory).
Proof.
  intros Hwf H Hin.
  destruct (graph_elem _ _ _ _ _ H Hin) as (m & Hm & [Hroot|Hit]).
  { destruct Hroot as (_ & _ & -> & _ & _ & -> & ->).
    split_and!; try done; try (by intros [? [=]]). by left. }
  destruct Hit as (i & it & e0 & _ & Hi & He0 & ->).
  pose proof (list_elem_of_lookup_2 _ _ _ Hi) as Hin_it.
  destruct (link_fold_fixed directory m (S i)
              (list_directory_contents omit_names w directory) e0)
    as (Hid & Hty & _ & Hdate & Hdesc & _).
  pose proof (make_entity_Ok _ _ _ _ He0)
    as (Hid0 & Hty0 & _ & Hdate0 & Hh0 & Hd0 & Hl).
  rewrite Hid, Hty, Hdate, Hdesc, Hid0, Hty0, Hdate0.
  split_and!.
  - by intros [? [=]].
  - destruct (looks_for_resource it) eqn:E.
    + intros _. by apply looks_for_resource_spec.
    + destruct Hl as [_ ->]. by intros [? [=]].
  - intros [r Hr].
    destruct (decide (Exists (described_at m (S i))
                        (list_directory_contents omit_names w directory)))
      as [Hex|Hno].
    + apply Exists_exists in Hex as (it1 & Hin1 & Hd1).
      pose proof Hd1 as (Hl1 & _ & Hp1).
      rewrite (described_at_self _ _ _ _ _ _ _ Hwf Hm Hi Hin1 Hp1) in Hl1.
      by apply looks_for_resource_spec in Hl1 as [? _].
    + rewrite link_fold_not_described in Hr; [congruence|].
      intros it' Hin' Hd'. apply Hno. apply Exists_exists. eauto.
  - intros [parts Hparts]. rewrite link_fold_hasPart, Hh0 in Hparts.
    destruct (contents_sound _ _ _ _ Hwf Hin_it)
      as (rel & nm & n & Hit & Hp & Hlk & Hk & Hv).
    destruct n as [f|children]; [|right; by rewrite Hit].
    exfalso.
    rewrite (children_filter w directory omit_names m i it (rel ++ [nm])
               Hwf Hm Hi Hp Hv) in Hparts by (by destruct rel).
    rewrite contents_of_no_root in Hparts; [done..|].
    intros children. congruence.
Qed.

Lemma X8_witness :
  let e := Entity "b" Directory "b" None None None (Some ["b/x.txt"]) None in
  (is_Some (dateCreated e) → ent_type e = Dataset)
  ∧ (is_Some (description e) →
     ent_type e = FileT ∧ PyStr.endswith (ent_id e) resource_suffix = false)
  ∧ (is_Some (isDescribedBy e) → ent_type e = FileT)
  ∧ (is_Some (hasPart e) → ent_type e = Dataset ∨ ent_type e = Directory).
Proof.
  intros e.
  apply (X8_keys_sit_where_they_belong Example.scenario Example.out_dir []
           Example.scenario_graph e).
  - vm_compute. reflexivity.
  - vm_compute. reflexivity.
  - apply list_elem_of_In. vm_compute. tauto.
Defined.

Lemma should_omit_mono omit1 omit2 nm :
  (∀ x, x ∈ omit1 → x ∈ omit2) →
  should_omit omit2 nm = false → should_omit omit1 nm = false.
Proof.
  unfold should_omit. intros Hsub H.
  apply orb_false_iff in H as [-> H]. simpl.
  apply bool_decide_eq_false in H. apply bool_decide_eq_false. auto.
Qed.

(** X10.  Adding names to [omit_names] never adds an entry to the walk:
    what is listed with the larger list is listed with the smaller one. *)
Theorem X10_omitting_more_lists_less w directory omit1 omit2 it :
  well_formed (disk w) = true →
  (∀ nm, nm ∈ omit1 → nm ∈ omit2) →
  it ∈ list_directory_contents omit2 w directory →
  it ∈ list_directory_contents omit1 w directory.
Proof.
  intros Hwf Hsub Hin.
  destruct (contents_sound _ _ _ _ Hwf Hin) as (rel & nm & n & -> & _ & Hl & Hk & _).
  apply contents_complete; [done|].
  eapply Forall_impl; [done|]. intros x. by apply should_omit_mono.
Qed.

Lemma X10_witness :
  Item FileT "tmp2/z.txt" (Example.out_dir ++ ["tmp2"])
    ∈ list_directory_contents [] Example.tmp_dirs Example.out_dir.
Proof.
  apply (X10_omitting_more_lists_less Example.tmp_dirs Example.out_dir [] ["tmp"]).
  - vm_compute. reflexivity.
  - intros nm Hnm. by apply elem_of_nil in Hnm.
  - apply list_elem_of_In. vm_compute. tauto.
Defined.

(** X11.  On a well-formed disk the walk lists each node reached from the
    walked directory through kept names, and nothing else, exactly once:
    a File or Directory item with the joined path of the node and the
    directory it was found in as root. *)
Theorem X11_walk_lists_kept_nodes_once w directory omit_names :
  well_formed (disk w) = true →
  NoDup (list_directory_contents omit_names w directory)
  ∧ ∀ it, it ∈ list_directory_contents omit_names w directory
          ↔ ∃ rel nm n,
              lookup_node (directory ++ rel ++ [nm]) (disk w) = Some n
              ∧ Forall (kept omit_names) (rel ++ [nm])
              ∧ it = Item (if is_dir n then Directory else FileT)
                          (PyStr.join (rel ++ [nm])) (directory ++ rel).
Proof.
  intros Hwf. split.
  - eapply NoDup_fmap_1. by apply contents_paths_NoDup.
  - intros it. split.
    + intros Hin.
      destruct (contents_sound _ _ _ _ Hwf Hin) as (rel & nm & n & Hit & Hp & Hl & Hk & _).
      exists rel, nm, n. split_and!; try done.
      rewrite Hit in Hp |- *. unfold item_of in *. simpl in Hp. by rewrite Hp.
    + intros (rel & nm & n & Hl & Hk & ->).
      pose proof (contents_complete omit_names w directory rel nm n Hl Hk) as Hin.
      unfold item_of in Hin.
      pose proof (item_of_path directory rel nm n) as Hp. simpl in Hp.
      by rewrite Hp in Hin.
Qed.

Lemma X11_witness :
  NoDup (list_directory_contents [] Example.scenario Example.out_dir)
  ∧ ∀ it, it ∈ list_directory_contents [] Example.scenario Example.out_dir
          ↔ ∃ rel nm n,
              lookup_node (Example.out_dir ++ rel ++ [nm]) (disk Example.scenario)
              = Some n
              ∧ Forall (kept []) (rel ++ [nm])
              ∧ it = Item (if is_dir n then Directory else FileT)
                          (PyStr.join (rel ++ [nm])) (Example.out_dir ++ rel).
Proof.
  apply (X11_walk_lists_kept_nodes_once Example.scenario Example.out_dir []).
  vm_compute. reflexivity.
Defined.

(** * The order of the walk *)

Section WalkOrder.
Variable omit_names : list string.

(** The triple of a directory comes before the triple of each of its kept
    sub-directories. *)
Lemma os_walk_order rel : ∀ n top children d sub,
  lookup_node rel n = Some (Dir children) →
  assoc d children = Some (Dir sub) →
  Forall (kept omit_names) rel → should_omit omit_names d = false →
  ∃ l1 l2 l3,
    os_walk omit_names top n
    = l1 ++ visit omit_names (top ++ rel) children
         :: l2 ++ visit omit_names (top ++ rel ++ [d]) sub :: l3.
Proof.
  induction rel as [|c rel IH]; intros n top children d sub Hl Ha Hk Hd.
  - simpl in Hl. inversion Hl; subst n. rewrite app_nil_r.
    assert (visit omit_names (top ++ [d]) sub
              ∈ os_walk omit_names top (Dir children)) as Hin.
    { apply os_walk_complete; [simpl; by rewrite Ha | by repeat constructor]. }
    rewrite os_walk_Dir in Hin |- *.
    apply elem_of_cons in Hin as [Heq|Hin].
    { apply (f_equal (λ v, length v.1.1)) in Heq. simpl in Heq.
      rewrite length_app in Heq. simpl in Heq. lia. }
    apply list_elem_of_split in Hin as (l2 & l3 & ->).
    by exists [], l2, l3.
  - simpl in Hl. destruct n as [f|ch]; [done|].
    destruct (assoc c ch) as [nc|] eqn:E; [|done].
    apply Forall_cons in Hk as [Hc Hk].
    destruct (IH nc (top ++ [c]) children d sub Hl Ha Hk Hd) as (l1 & l2 & l3 & Hw).
    apply assoc_elem_of in E. apply list_elem_of_split in E as (a & b & ->).
    rewrite os_walk_Dir, bind_app, bind_cons. simpl.
    assert (is_dir nc = true) as ->.
    { destruct nc; [|done]. by destruct rel. }
    rewrite Hc. simpl. rewrite Hw.
    match goal with
    | |- context [a ≫= ?F] =>
        exists (visit omit_names top (a ++ (c, nc) :: b) :: (a ≫= F) ++ l1),
               l2, (l3 ++ (b ≫= F))
    end.
    replace (top ++ c :: rel) with ((top ++ [c]) ++ rel)
      by (by rewrite <- app_assoc).
    replace (top ++ c :: rel ++ [d]) with ((top ++ [c]) ++ rel ++ [d])
      by (by rewrite <- app_assoc).
    simpl. f_equal. rewrite <- !app_assoc. f_equal. simpl. f_equal.
    rewrite <- !app_assoc. done.
Qed.

Lemma bind_order {A B} (f : A → list B) (l1 l2 l3 : list A) v1 v2 a b :
  a ∈ f v1 → b ∈ f v2 →
  ∃ p q r, (l1 ++ v1 :: l2 ++ v2 :: l3) ≫= f = p ++ a :: q ++ b :: r.
Proof.
  intros Ha Hb.
  apply list_elem_of_split in Ha as (a1 & a2 & Ha).
  apply list_elem_of_split in Hb as (b1 & b2 & Hb).
  rewrite bind_app, bind_cons, bind_app, bind_cons, Ha, Hb.
  exists ((l1 ≫= f) ++ a1), (a2 ++ (l2 ≫= f) ++ b1), (b2 ++ (l3 ≫= f)).
  rewrite <- !app_assoc. simpl. by rewrite <- ?app_assoc.
Qed.

End WalkOrder.

(** X12.  The walk is top-down: the Directory item of a sub-directory
    comes before every item found in that sub-directory. *)
Theorem X12_directory_before_its_entries w directory omit_names
    (i j : nat) it_dir it rel :
  well_formed (disk w) = true →
  list_directory_contents omit_names w directory !! i = Some it_dir →
  list_directory_contents omit_names w directory !! j = Some it →
  item_path it_dir = PyStr.join rel → rel ≠ [] →
  item_root it = directory ++ rel →
  (i < j)%nat.
Proof.
  intros Hwf Hi Hj Hpd Hne Hroot.
  pose proof (list_elem_of_lookup_2 _ _ _ Hi) as Hin_d.
  pose proof (list_elem_of_lookup_2 _ _ _ Hj) as Hin_c.
  destruct (contents_sound _ _ _ _ Hwf Hin_c)
    as (rel_c & nm_c & n_c & Hit_c & _ & Hl_c & Hk_c & Hv_c).
  assert (rel_c = rel) as ->.
  { rewrite Hit_c in Hroot. simpl in Hroot. by apply app_inv_head in Hroot. }
  destruct (contents_sound _ _ _ _ Hwf Hin_d)
    as (rel_d & nm_d & n_d & Hit_d & Hp_d & Hl_d & Hk_d & Hv_d).
  apply Forall_app in Hv_c as [Hv _]. pose proof Hk_c as Hk_c'.
  apply Forall_app in Hk_c' as [Hk _].
  rewrite Hp_d in Hpd. apply join_inj in Hpd; try done; [|by destruct rel_d].
  subst rel.
  rewrite app_assoc in Hl_c.
  apply lookup_node_snoc in Hl_c as (sub & Hl_sub & Ha_c).
  rewrite Hl_d in Hl_sub. inversion Hl_sub; subst n_d. clear Hl_sub.
  rewrite app_assoc in Hl_d.
  apply lookup_node_snoc in Hl_d as (children & Hl_d & Ha_d).
  rewrite lookup_node_app in Hl_d.
  pose proof (X := contents_paths_NoDup omit_names w directory Hwf).
  apply NoDup_fmap_1 in X.
  unfold list_directory_contents in *.
  destruct (lookup_node directory (disk w)) as [n|] eqn:Hdir; [|done].
  simpl in Hl_d.
  apply Forall_app in Hk_d as [Hk_d Hk_nm]. apply Forall_cons in Hk_nm as [Hk_nm _].
  destruct (os_walk_order omit_names rel_d n directory children nm_d sub
              Hl_d Ha_d Hk_d Hk_nm) as (l1 & l2 & l3 & Hw).
  assert (it_dir ∈ walk_body omit_names directory
                     (visit omit_names (directory ++ rel_d) children)) as Hbd.
  { apply elem_of_walk_body. exists nm_d, (Dir sub).
    split_and!; [by apply assoc_elem_of | done | done]. }
  assert (it ∈ walk_body omit_names directory
                 (visit omit_names (directory ++ rel_d ++ [nm_d]) sub)) as Hbc.
  { apply elem_of_walk_body. exists nm_c, n_c.
    apply Forall_app in Hk_c as [_ Hk_c]. apply Forall_cons in Hk_c as [Hk_c _].
    split_and!; [by apply assoc_elem_of | done | done]. }
  rewrite Hw in Hi, Hj, X.
  destruct (bind_order (walk_body omit_names directory) l1 l2 l3 _ _ _ _ Hbd Hbc)
    as (p & q & r & Heq).
  rewrite Heq in Hi, Hj, X.
  assert (i = length p) as ->.
  { eapply NoDup_lookup; [done..|]. by apply list_lookup_middle. }
  assert (j = length (p ++ it_dir :: q)) as ->.
  { eapply NoDup_lookup; [done..|].
    replace (p ++ it_dir :: q ++ it :: r) with ((p ++ it_dir :: q) ++ it :: r)
      by (by rewrite <- app_assoc).
    by apply list_lookup_middle. }
  rewrite length_app. simpl. lia.
Qed.

Lemma X12_witness : (2 < 3)%nat.
Proof.
  apply (X12_directory_before_its_entries Example.scenario Example.out_dir []
           2 3 (Item Directory "b" Example.out_dir)
           (Item FileT "b/x.txt" (Example.out_dir ++ ["b"])) ["b"]).
  - vm_compute. reflexivity.
  - vm_compute. reflexivity.
  - vm_compute. reflexivity.
  - reflexivity.
  - discriminate.
  - reflexivity.
Defined.

(** * The time of the build *)

Lemma link_fold_untouched directory (m : gmap string nat) (j : nat) l : ∀ e,
  (∀ p, m !! p ≠ Some j) →
  foldl (link_entity directory m j) e l = e.
Proof.
  intros e Hm. induction l as [|it rest IH] using rev_ind; [done|].
  rewrite foldl_snoc, IH. unfold link_entity.
  rewrite decide_False by apply Hm.
  rewrite (bool_decide_eq_false_2 (m !! item_path it = Some j)) by apply Hm.
  by rewrite andb_false_r.
Qed.

Lemma first_loop_at_time t w directory contents : ∀ g m,
  first_loop (at_time t w) directory contents g m
  = first_loop w directory contents g m.
Proof.
  induction contents as [|it rest IH]; intros g m; simpl; [done|].
  change (make_entity (at_time t w) directory it) with (make_entity w directory it).
  destruct (make_entity w directory it); simpl; [apply IH | done].
Qed.

Lemma first_loop_root w directory contents : ∀ r r' g m g' m',
  first_loop w directory contents (r :: g) m = Ok (g', m') →
  ∃ rest, g' = r :: rest
          ∧ first_loop w directory contents (r' :: g) m = Ok (r' :: rest, m').
Proof.
  induction contents as [|it rest IH]; intros r r' g m g' m'; simpl.
  - intros [= <- <-]. by exists g.
  - destruct (make_entity w directory it) as [e|x]; simpl; [|done].
    apply IH.
Qed.

(** X13.  The root of a built graph is the root dictionary as it was
    created, and the time of the build shows nowhere else: a build at
    another time gives the same graph but for the root's creation date. *)
Theorem X13_time_shows_in_the_root_only w directory contents g :
  build_graph w directory contents = Ok g →
  ∃ rest, g = root_entity w directory :: rest
          ∧ ∀ t, build_graph (at_time t w) directory contents
                 = Ok (root_entity (at_time t w) directory :: rest).
Proof.
  intros H. pose proof H as H0.
  apply build_graph_Ok in H0 as (es & m & Hes & Hm & Hg).
  assert (∀ p, m !! p ≠ Some 0) as Hm0.
  { intros p. rewrite Hm. by destruct (last_index p contents). }
  unfold build_graph in H. apply bind_Ok in H as ([g1 m1] & H1 & H2).
  assert (∀ p, m1 !! p = m !! p) as Hmm.
  { intros p. apply first_loop_Ok in H1 as [_ Hm1]. rewrite Hm1, Hm.
    by destruct (last_index p contents). }
  apply map_eq in Hmm. subst m1.
  destruct g as [|r rest].
  { specialize (Hg 0). simpl in Hg. done. }
  exists rest. split.
  - f_equal. specialize (Hg 0). simpl in Hg. inversion Hg.
    by rewrite link_fold_untouched.
  - intros t. unfold build_graph. rewrite first_loop_at_time.
    destruct (first_loop_root _ _ _ _ (root_entity (at_time t w) directory)
                _ _ _ _ H1) as (rest1 & -> & ->).
    simpl.
    destruct (second_loop_Ok directory m contents
                (root_entity (at_time t w) directory :: rest1)) as (g' & -> & Hg').
    { intros it Hin. rewrite Hm. apply fmap_is_Some, last_index_is_Some.
      by apply list_elem_of_fmap_2. }
    destruct (second_loop_Ok directory m contents
                (root_entity w directory :: rest1)) as (g2 & Hg2 & Hg2').
    { intros it Hin. rewrite Hm. apply fmap_is_Some, last_index_is_Some.
      by apply list_elem_of_fmap_2. }
    rewrite Hg2 in H2. inversion H2; subst g2.
    f_equal. apply list_eq. intros [|j].
    + rewrite Hg'. simpl. by rewrite link_fold_untouched.
    + rewrite Hg'. specialize (Hg2' (S j)). simpl in *. by rewrite Hg2'.
Qed.

Lemma X13_witness :
  ∃ rest, Example.scenario_graph = root_entity Example.scenario Example.out_dir :: rest
          ∧ ∀ t, build_graph (at_time t Example.scenario) Example.out_dir
                   (list_directory_contents [] Example.scenario Example.out_dir)
                 = Ok (root_entity (at_time t Example.scenario) Example.out_dir
                       :: rest).
Proof.
  apply (X13_time_shows_in_the_root_only Example.scenario Example.out_dir).
  vm_compute. reflexivity.
Defined.

(** * The first version *)

Section FirstVersion.

Lemma every_entry_Dir P children :
  every_entry P (Dir children) = true ↔
  ∀ k c, (k, c) ∈ children → P k c = true ∧ every_entry P c = true.
Proof.
  simpl. rewrite forallb_forall. split.
  - intros H k c Hin. apply list_elem_of_In in Hin. apply H in Hin.
    by apply andb_true_iff in Hin.
  - intros H [k c] Hin. apply list_elem_of_In in Hin. apply andb_true_iff.
    by apply H.
Qed.

Lemma every_entry_lookup P p : ∀ n k c,
  every_entry P n = true → lookup_node (p ++ [k]) n = Some c → P k c = true.
Proof.
  induction p as [|x p IH]; intros n k c Hall Hl; simpl in Hl;
    destruct n as [f|children]; try done.
  - destruct (assoc k children) as [n'|] eqn:E; [|done].
    inversion Hl; subst n'. apply assoc_elem_of in E.
    by destruct (proj1 (every_entry_Dir P children) Hall _ _ E).
  - destruct (assoc x children) as [n'|] eqn:E; [|done].
    apply assoc_elem_of in E.
    destruct (proj1 (every_entry_Dir P children) Hall _ _ E) as [_ E'].
    by eapply IH.
Qed.

Lemma every_entry_below P p : ∀ n n',
  every_entry P n = true → lookup_node p n = Some n' → every_entry P n' = true.
Proof.
  induction p as [|x p IH]; intros n n' Hall Hl; simpl in Hl.
  - by inversion Hl; subst.
  - destruct n as [f|children]; [done|].
    destruct (assoc x children) as [n1|] eqn:E; [|done].
    apply assoc_elem_of in E.
    destruct (proj1 (every_entry_Dir P children) Hall _ _ E) as [_ E'].
    by eapply IH.
Qed.

(** Where no name is reserved, the two walks list the same items. *)
Lemma os_walk_V1 directory n : ∀ top,
  every_entry no_reserved_name n = true →
  V1.os_walk top n ≫= V1.walk_body directory
  = os_walk [] top n ≫= walk_body [] directory.
Proof.
  induction n as [f|children IH] using node_nested_ind; intros top Hall; [done|].
  rewrite os_walk_Dir. simpl V1.os_walk. rewrite !bind_cons.
  pose proof (proj1 (every_entry_Dir _ _) Hall) as Hch.
  f_equal.
  - assert (filter (kept []) (file_names children) = file_names children) as Hf.
    { apply filter_all. intros nm Hnm. apply elem_of_file_names in Hnm as [f Hnm].
      destruct (Hch _ _ Hnm) as [Hk _]. by apply negb_true_iff in Hk. }
    assert (filter (kept []) (dir_names children) = dir_names children) as Hd.
    { apply filter_all. intros nm Hnm. apply elem_of_dir_names in Hnm as [ch Hnm].
      destruct (Hch _ _ Hnm) as [Hk _]. by apply negb_true_iff in Hk. }
    unfold V1.walk_body, walk_body, visit. by rewrite Hf, !Hd.
  - clear Hall. induction children as [|[k c] rest IHrest]; [done|].
    rewrite !bind_cons, !bind_app. apply Forall_cons in IH as [IHc IH].
    f_equal.
    + simpl. destruct (Hch k c ltac:(left)) as [Hk Hc].
      unfold no_reserved_name in Hk. rewrite Hk. rewrite andb_true_r.
      destruct (is_dir c); [by apply IHc | done].
    + apply IHrest; [done|]. intros k' c' Hin. apply Hch. by right.
Qed.

End FirstVersion.

(** X14.  On a directory below which no name ends in [.git] or
    [.ipynb_checkpoints], the walk of the first version, which omits
    nothing, lists the same items in the same order as the walk of the
    later version with an empty [omit_names]. *)
Theorem X14_first_version_walk_agrees w directory n :
  lookup_node directory (disk w) = Some n →
  every_entry no_reserved_name n = true →
  V1.list_directory_contents w directory
  = list_directory_contents [] w directory.
Proof.
  intros Hl Hall. unfold V1.list_directory_contents, list_directory_contents.
  rewrite Hl. by apply os_walk_V1.
Qed.

Lemma X14_witness :
  V1.list_directory_contents Example.scenario Example.out_dir
  = list_directory_contents [] Example.scenario Example.out_dir.
Proof.
  eapply (X14_first_version_walk_agrees Example.scenario Example.out_dir).
  - vm_compute. reflexivity.
  - vm_compute. reflexivity.
Defined.

Lemma V1_first_loop_positions w directory contents : ∀ g m g' m',
  V1.first_loop w directory contents g m = Ok (g', m') →
  g ≠ [] → (∀ p, m !! p ≠ Some 0) →
  g' !! 0 = g !! 0 ∧ ∀ p, m' !! p ≠ Some 0.
Proof.
  induction contents as [|it rest IH]; intros g m g' m'; simpl.
  - intros [= <- <-]. done.
  - intros H Hne Hm. apply bind_Ok in H as (e & _ & H).
    apply IH in H as [Hg' Hm'].
    + split; [|done]. rewrite Hg'. by destruct g.
    + by destruct g.
    + intros p. rewrite lookup_insert. destruct (decide (item_path it = p)); [|done].
      intros [= Hlen]. by destruct g.
Qed.

Lemma V1_link_item_root directory (m : gmap string nat) g it g' :
  (∀ p, m !! p ≠ Some 0) →
  V1.link_item directory m g it = Ok g' → g' !! 0 = g !! 0.
Proof.
  intros Hm. unfold V1.link_item.
  set (g1 := match m !! parent_path_of directory it with
             | Some parent => alter (append_hasPart (item_path it)) parent g
             | None => g
             end).
  assert (g1 !! 0 = g !! 0) as Hg1.
  { subst g1. destruct (m !! parent_path_of directory it) as [q|] eqn:E; [|done].
    apply list_lookup_alter_ne. intros ->. by apply Hm in E. }
  destruct (V1.looks_for_resource it); [|by intros [= <-]].
  destruct (bool_decide _); [|by intros [= <-]].
  destruct (m !! item_path it) as [q|] eqn:E; [|done].
  intros [= <-]. rewrite list_lookup_alter_ne; [done|].
  intros ->. by apply Hm in E.
Qed.

Lemma V1_second_loop_root directory (m : gmap string nat) contents : ∀ g g',
  (∀ p, m !! p ≠ Some 0) →
  V1.second_loop directory m contents g = Ok g' → g' !! 0 = g !! 0.
Proof.
  induction contents as [|it rest IH]; intros g g' Hm; simpl.
  - by intros [= <-].
  - intros H. apply bind_Ok in H as (g1 & H1 & H).
    rewrite (IH _ _ Hm H). by eapply V1_link_item_root.
Qed.

(** X15.  In the first version too the root dictionary is never reached
    through [path_to_entity]: whatever the contents, the first entity of
    the built graph is the root as it was created, with an empty
    [hasPart], and so is the first entity of every document the function
    writes. *)
Theorem X15_first_version_root_stays_empty w directory :
  (∀ contents g, V1.build_graph w directory contents = Ok g →
                 g !! 0 = Some (root_entity w directory))
  ∧ ∀ output_file doc r,
      V1.create_and_write_ro_crate_metadata w directory output_file
      = (Dumped doc, r) →
      ∃ root, graph doc !! 0 = Some root ∧ ent_id root = "./"
              ∧ hasPart root = Some [].
Proof.
  assert (∀ contents g, V1.build_graph w directory contents = Ok g →
                        g !! 0 = Some (root_entity w directory)) as Hroot.
  { intros contents g H. unfold V1.build_graph in H.
    apply bind_Ok in H as ([g1 m] & H1 & H2).
    apply V1_first_loop_positions in H1 as [Hg1 Hm]; [|done|done].
    rewrite (V1_second_loop_root _ _ _ _ _ Hm H2). by rewrite Hg1. }
  split; [done|].
  intros output_file doc r H. unfold V1.create_and_write_ro_crate_metadata in H.
  destruct (V1.build_graph w directory _) as [g|x] eqn:E; [|done].
  apply Hroot in E. unfold V1.write_metadata in H.
  exists (root_entity w directory).
  repeat case_match; simplify_eq; by simpl.
Qed.

(** * When the build succeeds *)

Lemma split_from_suffix suffix s : ∀ acc,
  slash_free suffix →
  ∃ l k, PyStr.split_from acc (s +:+ suffix) = l ++ [k +:+ suffix].
Proof.
  intros acc Hs. revert acc. induction s as [|x s IH]; intros acc.
  - exists [], acc. rewrite string_app_nil_l. by apply split_from_slash_free.
  - rewrite string_app_cons. simpl. destruct (Ascii.eqb x "/").
    + destruct (IH "") as (l & k & ->). by exists (acc :: l), k.
    + apply IH.
Qed.

(** The last component of a candidate descriptor path ends in
    [.resource.yaml]. *)
Lemma components_resource_file path :
  ∃ l k, PyStr.components (resource_file_of path) = l ++ [k]
         ∧ PyStr.endswith k resource_suffix = true.
Proof.
  unfold resource_file_of, PyStr.components.
  destruct (split_from_suffix resource_suffix (PyStr.splitext path).1 "")
    as (l & k & ->); [done|].
  rewrite filter_app, filter_cons_True, filter_nil.
  - eexists _, _. split; [done|]. apply endswith_app.
  - by destruct k.
Qed.

Lemma make_entity_succeeds w directory omit_names it :
  well_formed (disk w) = true →
  every_entry file_readable (disk w) = true →
  every_entry descriptor_loads (disk w) = true →
  it ∈ list_directory_contents omit_names w directory →
  ∃ e, make_entity w directory it = Ok e.
Proof.
  intros Hwf Hread Hdesc Hin. unfold make_entity.
  destruct (looks_for_resource it) eqn:Hlook; [|eauto].
  apply looks_for_resource_spec in Hlook as [Hty _].
  assert (∃ e1, (if os_path_exists w (resource_file_of (item_path it))
                 then description ← get_description_from_resource_file w
                                      (resource_file_of (item_path it));
                      Ok (set_description description
                            (Entity (item_path it) (item_type it)
                                    (PyStr.basename (item_path it))
                                    None None None None None))
                 else Ok (Entity (item_path it) (item_type it)
                                 (PyStr.basename (item_path it))
                                 None None None None None)) = Ok e1) as [e1 ->].
  { destruct (os_path_exists w _) eqn:Hex; [|eauto].
    unfold get_description_from_resource_file. rewrite Hex.
    unfold os_path_exists in Hex. apply bool_decide_eq_true in Hex as [n Hn].
    rewrite Hn.
    destruct (components_resource_file (item_path it)) as (l & k & Hc & Hk).
    rewrite Hc, app_assoc in Hn.
    pose proof (every_entry_lookup _ _ _ _ _ Hdesc Hn) as Hload.
    unfold descriptor_loads in Hload. rewrite Hk in Hload.
    destruct n as [f|ch]; [|done].
    apply andb_true_iff in Hload as [-> Hload].
    destruct (text f) as [| | |[]]; try done. simpl. eauto. }
  simpl.
  destruct (contents_sound _ _ _ _ Hwf Hin)
    as (rel & nm & n & Hit & Hp & Hl & _ & Hv).
  rewrite Hp, components_join by done. unfold md5. rewrite Hl.
  rewrite Hit in Hty. simpl in Hty. destruct n as [f|ch]; [|done].
  rewrite app_assoc in Hl.
  pose proof (every_entry_lookup _ _ _ _ _ Hread Hl) as Hr. simpl in Hr.
  rewrite Hr. simpl. eauto.
Qed.

(** X16.  On a disk where every file can be read and everything named
    [*.resource.yaml] is a file that holds a mapping, the build in memory
    ends well for every directory and every [omit_names]: nothing else
    can make it fail. *)
Theorem X16_build_succeeds_on_a_sound_disk w directory omit_names :
  well_formed (disk w) = true →
  every_entry file_readable (disk w) = true →
  every_entry descriptor_loads (disk w) = true →
  ∃ g, manifest w directory omit_names = Ok g.
Proof.
  intros Hwf Hread Hdesc. apply build_graph_succeeds.
  intros it Hin. by eapply make_entity_succeeds.
Qed.

Lemma X16_witness :
  ∃ g, manifest Example.scenario Example.out_dir [] = Ok g.
Proof.
  apply (X16_build_succeeds_on_a_sound_disk Example.scenario Example.out_dir []).
  - vm_compute. reflexivity.
  - vm_compute. reflexivity.
  - vm_compute. reflexivity.
Defined.

(** * The descriptor and the mapping *)

(** X17.  A description attached to an entity always comes from a readable
    file at the candidate descriptor path, taken from the working
    directory, whose YAML document is a mapping: it is the value of the
    mapping's [description] key, or the empty string when the mapping has
    no such key. *)
Theorem X17_description_comes_from_a_mapping w directory contents g e d :
  build_graph w directory contents = Ok g → e ∈ g →
  description e = Some d →
  ∃ f kv,
    lookup_node (cwd w ++ PyStr.components (resource_file_of (ent_id e))) (disk w)
    = Some (File f)
    ∧ readable f = true
    ∧ text f = Loads (PyDict kv)
    ∧ d = dict_get kv "description" (PyString "").
Proof.
  intros H Hin Hd.
  destruct (entity_origin _ _ _ _ _ H Hin) as [Hroot|Hit].
  { destruct Hroot as (_ & _ & _ & ?). congruence. }
  destruct Hit as (it & e0 & _ & He0 & Hid & _ & Hd0 & _).
  rewrite Hd0 in Hd. rewrite Hid.
  apply make_entity_Ok in He0 as (_ & _ & _ & _ & _ & _ & Hl).
  destruct (looks_for_resource it); [|destruct Hl; congruence].
  destruct Hl as (_ & Hex & Hval).
  pose proof (proj1 Hex ltac:(by eexists)) as Hex'.
  specialize (Hval d Hd). unfold get_description_from_resource_file in Hval.
  rewrite Hex' in Hval.
  destruct (lookup_node _ _) as [[f|ch]|]; try done.
  destruct (readable f) eqn:Hr; [|done].
  destruct (text f) as [| | |doc] eqn:Ht; try done.
  destruct doc; simpl in Hval; try done.
  inversion Hval. by exists f, kv.
Qed.

Lemma X17_witness :
  ∃ f kv,
    lookup_node (cwd Example.scenario
                 ++ PyStr.components (resource_file_of "a.csv"))
                (disk Example.scenario)
    = Some (File f)
    ∧ readable f = true
    ∧ text f = Loads (PyDict kv)
    ∧ PyString "Attribute table" = dict_get kv "description" (PyString "").
Proof.
  apply (X17_description_comes_from_a_mapping Example.scenario Example.out_dir
           (list_directory_contents [] Example.scenario Example.out_dir)
           Example.scenario_graph
           (Entity "a.csv" FileT "a.csv" None (Some (PyString "Attribute table"))
                   (Some [("MD5", "m_a")]) None (Some "a.resource.yaml"))).
  - vm_compute. reflexivity.
  - apply list_elem_of_In. vm_compute. tauto.
  - reflexivity.
Defined.

(** X18.  After the first loop, [path_to_entity] holds exactly the paths
    of the contents, and looking a path up gives the position of an entity
    of the graph that has this path as its id and is not the root. *)
Theorem X18_mapping_holds_the_paths w directory contents g
    (m : gmap string nat) :
  first_loop w directory contents [root_entity w directory] ∅ = Ok (g, m) →
  (∀ p, is_Some (m !! p) ↔ p ∈ item_path <$> contents)
  ∧ ∀ p (k : nat), m !! p = Some k →
                   k ≠ 0 ∧ ∃ e, g !! k = Some e ∧ ent_id e = p.
Proof.
  intros H. apply first_loop_Ok in H as [(es & -> & Hes) Hm]. split.
  - intros p. rewrite Hm, <- last_index_is_Some.
    destruct (last_index p contents); [|by rewrite lookup_empty].
    split; by eauto.
  - intros p k Hk. rewrite Hm in Hk.
    destruct (last_index p contents) as [j|] eqn:E; [|by rewrite lookup_empty in Hk].
    inversion Hk; subst k. simpl. split; [done|].
    apply last_index_lookup in E as (it & Hj & Hp).
    destruct (Forall2_lookup_l _ _ _ _ _ Hes Hj) as (e & He & Hmk).
    exists e. split; [done|].
    apply make_entity_Ok in Hmk as (? & _). congruence.
Qed.

Lemma X18_witness :
  (∀ p, is_Some (({["a.csv" := 1]} : gmap string nat) !! p)
        ↔ p ∈ item_path <$> [Example.a_csv])
  ∧ ∀ p (k : nat), ({["a.csv" := 1]} : gmap string nat) !! p = Some k →
                   k ≠ 0
                   ∧ ∃ e, [root_entity Example.single Example.out_dir;
                           Entity "a.csv" FileT "a.csv" None None
                                  (Some [("MD5", "m_a")]) None None] !! k = Some e
                          ∧ ent_id e = p.
Proof.
  apply (X18_mapping_holds_the_paths Example.single Example.out_dir
           [Example.a_csv]).
  vm_compute. reflexivity.
Defined.

(** X19.  The parts of an entity are listed in the order in which the
    contents were found: every [hasPart] list of a built graph is a
    sub-sequence of the paths of the contents. *)
Theorem X19_parts_follow_the_contents w directory contents g e parts :
  build_graph w directory contents = Ok g → e ∈ g →
  hasPart e = Some parts →
  parts `sublist_of` (item_path <$> contents).
Proof.
  intros H Hin Hparts.
  destruct (graph_elem _ _ _ _ _ H Hin) as (m & Hm & [Hroot|Hit]).
  { destruct Hroot as (_ & _ & _ & Hh & _). rewrite Hh in Hparts.
    inversion Hparts. apply sublist_nil_l. }
  destruct Hit as (i & it & e0 & _ & Hi & He0 & ->).
  rewrite link_fold_hasPart in Hparts.
  apply make_entity_Ok in He0 as (_ & _ & _ & _ & Hh & _). rewrite Hh in Hparts.
  apply add_parts_None_Some in Hparts as [-> _].
  apply fmap_sublist, sublist_filter.
Qed.

Lemma X19_witness :
  ["b/x.txt"] `sublist_of`
    (item_path <$> list_directory_contents [] Example.scenario Example.out_dir).
Proof.
  apply (X19_parts_follow_the_contents Example.scenario Example.out_dir
           (list_directory_contents [] Example.scenario Example.out_dir)
           Example.scenario_graph
           (Entity "b" Directory "b" None None None (Some ["b/x.txt"]) None)).
  - vm_compute. reflexivity.
  - apply list_elem_of_In. vm_compute. tauto.
  - reflexivity.
Defined.
